(** * Telematics trip engine: speed-limit resolver, cache and trip session

    A shallow embedding of the mobile trip-monitoring code
    ([speedLimitService.js] and the [App] component that owns the trip
    session) together with the properties its specification states.

    Number model.  JavaScript numbers are idealised as exact numbers:
    millisecond timestamps as [Z], integral speed limits as [Z], speeds,
    coordinates and durations as [Q].  The two places where the source
    leaves the rationals ([distanceKm], which uses sin/cos/atan2, and
    [Math.sqrt]) are section variables of the engine, so every theorem
    about the engine holds for any implementation of them. *)

From Stdlib Require Import ZArith QArith Qabs Qround Lqa Lia.
From Stdlib Require Import String Ascii List Bool.
Import ListNotations.

Open Scope Z_scope.

(* ================================================================== *)
(** ** JavaScript primitives used by the source *)
(* ================================================================== *)

Module Js.

(** [Math.round]: the nearest integer, ties towards +infinity. *)
Definition Math_round (x : Q) : Z := Qfloor (x + (1 # 2))%Q.

Definition Qlt_bool (x y : Q) : bool := negb (Qle_bool y x).

(** Outcome of evaluating a block that may throw. *)
Inductive Completion (A : Type) : Type :=
| Return (a : A)
| Throw (message : string).
Arguments Return {A} a.
Arguments Throw {A} message.

Definition bind {A B} (c : Completion A) (k : A -> Completion B) : Completion B :=
  match c with
  | Return a => k a
  | Throw m => Throw m
  end.

(** [try { body } catch (error) { handler(error) }]. *)
Definition try_catch {A} (body : Completion A) (handler : string -> Completion A)
  : Completion A :=
  match body with
  | Return a => Return a
  | Throw m => handler m
  end.

(** Property access on a value that may be [undefined]: a TypeError. *)
Definition member {A} (o : option A) : Completion A :=
  match o with
  | Some a => Return a
  | None => Throw "TypeError: cannot read properties of undefined"
  end.

(** *** Strings *)

Definition is_digit (c : ascii) : bool :=
  let n := nat_of_ascii c in (Nat.leb 48 n && Nat.leb n 57)%bool.

Definition digit_value (c : ascii) : Z := Z.of_nat (nat_of_ascii c) - 48.

(** The longest prefix of decimal digits. *)
Fixpoint take_digits (s : string) : list ascii :=
  match s with
  | EmptyString => []
  | String c rest => if is_digit c then c :: take_digits rest else []
  end.

(** [s.match(/(\d+)/)]: capture group 1 of the leftmost match, the first
    maximal run of decimal digits, or [None] when there is no digit. *)
Fixpoint match_digits (s : string) : option (list ascii) :=
  match s with
  | EmptyString => None
  | String c rest =>
      if is_digit c then Some (c :: take_digits rest) else match_digits rest
  end.

(** [parseInt(digits, 10)] on a non-empty string of decimal digits. *)
Definition parseInt10 (ds : list ascii) : Z :=
  fold_left (fun acc c => 10 * acc + digit_value c) ds 0.

Definition lower_ascii (c : ascii) : ascii :=
  let n := nat_of_ascii c in
  if (Nat.leb 65 n && Nat.leb n 90)%bool then ascii_of_nat (n + 32) else c.

Fixpoint toLowerCase (s : string) : string :=
  match s with
  | EmptyString => EmptyString
  | String c rest => String (lower_ascii c) (toLowerCase rest)
  end.

(** [s.includes(sub)]. *)
Fixpoint includes (sub s : string) : bool :=
  if String.prefix sub s then true
  else match s with
       | EmptyString => false
       | String _ rest => includes sub rest
       end.

End Js.

Import Js.

(* ================================================================== *)
(** ** speedLimitService.js: the resolver *)
(* ================================================================== *)

Module SpeedLimit.

Inductive Source : Type :=
| Osm | Legal | LegalValidated | Default | DefaultError.

(** The object returned by [getSpeedLimit]. *)
Record SpeedLimitInfo : Type := mkInfo {
  speedLimit : Z;
  source : Source;
  osmSpeed : option Z;
  roadType : option string;
  legalLimit : Z
}.

(** [LEBANON_LEGAL_LIMITS], in source order. *)
Definition LEBANON_LEGAL_LIMITS : list (string * Z) :=
  [ ("motorway", 120); ("trunk", 100); ("primary", 80); ("secondary", 80);
    ("tertiary", 60); ("residential", 50); ("living_street", 25);
    ("service", 25); ("track", 25); ("unclassified", 50); ("default", 60) ]%string.

Definition LEBANON_LEGAL_LIMITS_default : Z := 60.

Fixpoint lookup (k : string) (table : list (string * Z)) : option Z :=
  match table with
  | [] => None
  | (k', v) :: rest => if String.eqb k k' then Some v else lookup k rest
  end.

(** [LEBANON_LEGAL_LIMITS[roadType] || LEBANON_LEGAL_LIMITS.default];
    a missing [highway] tag indexes with [undefined] and falls back too.
    Every table value is non-zero, so [||] only replaces a missing key.
    Road classes are OSM highway values; the names an object inherits
    from its prototype (such as [constructor]) are not among them and
    are not looked up here. *)
Definition legalLimitFor (roadType : option string) : Z :=
  match roadType with
  | Some rt =>
      match lookup rt LEBANON_LEGAL_LIMITS with
      | Some v => if Z.eqb v 0 then LEBANON_LEGAL_LIMITS_default else v
      | None => LEBANON_LEGAL_LIMITS_default
      end
  | None => LEBANON_LEGAL_LIMITS_default
  end.

(** *** The Overpass response, as far as the code inspects it *)

(** A tag value as the code sees it: a string, or some other JSON value,
    of which only its truthiness matters. Overpass sends strings. *)
Inductive TagValue : Type :=
| TagString (s : string)
| TagOther (isTruthy : bool).

Record Tags : Type := mkTags {
  highway : option string;
  maxspeed : option TagValue
}.

Record Element : Type := mkElement { tags : option Tags }.

Record ResponseData : Type := mkData { elements : option (list Element) }.

(** What [await axios.post(...)] produces: a rejection (network error,
    the 5000 ms timeout, a non-2xx status) or a response whose [data] may
    be absent. *)
Inductive AxiosResult : Type :=
| Rejected (message : string)
| Resolved (data : option ResponseData).

(** Lines 51-63: parse the [maxspeed] tag. A missing tag, an empty
    string and any other falsy value are skipped; a truthy value that is
    not a string has no [match] method, and calling it throws. *)
Definition parseMaxspeed (maxspeedTag : option TagValue) : Completion (option Z) :=
  match maxspeedTag with
  | None => Return None
  | Some (TagOther false) => Return None
  | Some (TagOther true) => Throw "TypeError: maxspeedTag.match is not a function"
  | Some (TagString EmptyString) => Return None
  | Some (TagString tag) =>
      match match_digits tag with
      | None => Return None
      | Some ds =>
          let osm := parseInt10 ds in
          if includes "mph" (toLowerCase tag)
          then Return (Some (Math_round (inject_Z osm * 1.60934)%Q))
          else Return (Some osm)
      end
  end.

(** Lines 68-85: compare the posted value with the legal limit. *)
Definition validateOsm (osm : option Z) (legal : Z) : Z * Source :=
  match osm with
  | None => (legal, Legal)
  | Some o =>
      let difference := Z.abs (o - legal) in
      if difference <=? 20 then (o, Osm) else (legal, LegalValidated)
  end.

Definition defaultInfo (src : Source) : SpeedLimitInfo :=
  {| speedLimit := LEBANON_LEGAL_LIMITS_default;
     source := src;
     osmSpeed := None;
     roadType := None;
     legalLimit := LEBANON_LEGAL_LIMITS_default |}.

(** The body of the [try] block, after the awaited request. *)
Definition getSpeedLimit_try (response : AxiosResult) : Completion SpeedLimitInfo :=
  match response with
  | Rejected m => Throw m
  | Resolved None => Return (defaultInfo Default)
  | Resolved (Some d) =>
      match elements d with
      | None | Some [] => Return (defaultInfo Default)
      | Some (road :: _) =>
          bind (member (tags road)) (fun t =>
            let rt := highway t in
            bind (parseMaxspeed (maxspeed t)) (fun osm =>
              let legal := legalLimitFor rt in
              let '(finalSpeed, src) := validateOsm osm legal in
              Return {| speedLimit := finalSpeed;
                        source := src;
                        osmSpeed := osm;
                        roadType := rt;
                        legalLimit := legal |}))
      end
  end.

(** [getSpeedLimit]: the whole body sits in [try]; [catch] returns the
    default with source [default_error]. What is thrown there is an
    Error object (from axios or a TypeError), so reading its [message]
    in the handler cannot throw in turn. *)
Definition getSpeedLimit (response : AxiosResult) : Completion SpeedLimitInfo :=
  try_catch (getSpeedLimit_try response)
            (fun _ => Return (defaultInfo DefaultError)).

End SpeedLimit.

(* ================================================================== *)
(** ** speedLimitService.js: the cache in front of the resolver *)
(* ================================================================== *)

Module Cache.
Import SpeedLimit.

Definition CACHE_DURATION_MS : Z := 120000.
Definition CACHE_MAX_ENTRIES : nat := 100.

(** The key string is built from the two coordinates rounded to three
    decimals; two key strings are equal exactly when the rounded
    thousandths are, so the key is kept as that pair of integers. *)
Definition CacheKey : Type := (Z * Z)%type.

Definition cacheKey (latitude longitude : Q) : CacheKey :=
  (Math_round (latitude * 1000)%Q, Math_round (longitude * 1000)%Q).

Definition key_eqb (a b : CacheKey) : bool :=
  (fst a =? fst b) && (snd a =? snd b).

Record Entry : Type := mkEntry {
  data : SpeedLimitInfo;
  timestamp : Z
}.

(** A JavaScript [Map] iterates in insertion order, and [set] on a key
    that is present replaces the value where it stands: an association
    list without repeated keys. *)
Definition SpeedLimitCache : Type := list (CacheKey * Entry).

Fixpoint Map_get (k : CacheKey) (m : SpeedLimitCache) : option Entry :=
  match m with
  | [] => None
  | (k', e) :: rest => if key_eqb k k' then Some e else Map_get k rest
  end.

Fixpoint Map_set (k : CacheKey) (e : Entry) (m : SpeedLimitCache) : SpeedLimitCache :=
  match m with
  | [] => [(k, e)]
  | (k', e') :: rest =>
      if key_eqb k k' then (k', e) :: rest else (k', e') :: Map_set k e rest
  end.

Definition Map_delete (k : CacheKey) (m : SpeedLimitCache) : SpeedLimitCache :=
  filter (fun p => negb (key_eqb k (fst p))) m.

Definition Map_size (m : SpeedLimitCache) : nat := length m.

(** [map.keys().next().value] *)
Definition Map_firstKey (m : SpeedLimitCache) : option CacheKey :=
  match m with
  | [] => None
  | (k, _) :: _ => Some k
  end.

(** Lines 149-153: drop the first key once the size exceeds 100. *)
Definition evictOldest (m : SpeedLimitCache) : SpeedLimitCache :=
  if Nat.ltb CACHE_MAX_ENTRIES (Map_size m) then
    match Map_firstKey m with
    | Some firstKey => Map_delete firstKey m
    | None => m
    end
  else m.

(** One call of [getSpeedLimitCached], with what it did to the world:
    the value it settles with, the cache it leaves, and the coordinates
    of every external query it sent. *)
Record CachedCall : Type := mkCall {
  result : Completion SpeedLimitInfo;
  cache_after : SpeedLimitCache;
  queries : list (Q * Q)
}.

(** [getSpeedLimitCached]. [nowLookup] and [nowInsert] are the two
    readings of [Date.now()], before and after the awaited request;
    [response] is the outcome of that request when one is sent. A call
    is taken as a whole: no other call touches the cache between its
    lookup and its store. *)
Definition getSpeedLimitCached (cache : SpeedLimitCache) (latitude longitude : Q)
    (nowLookup : Z) (response : AxiosResult) (nowInsert : Z) : CachedCall :=
  let key := cacheKey latitude longitude in
  let fetch :=
    match getSpeedLimit response with
    | Return d =>
        let stored := Map_set key {| data := d; timestamp := nowInsert |} cache in
        {| result := Return d;
           cache_after := evictOldest stored;
           queries := [(latitude, longitude)] |}
    | Throw m =>
        {| result := Throw m;
           cache_after := cache;
           queries := [(latitude, longitude)] |}
    end in
  match Map_get key cache with
  | Some cached =>
      if nowLookup - timestamp cached <? CACHE_DURATION_MS
      then {| result := Return (data cached); cache_after := cache; queries := [] |}
      else fetch
  | None => fetch
  end.

(** A sequence of calls against the module-level cache, which starts
    empty when the module is loaded. *)
Record CallArgs : Type := mkArgs {
  arg_latitude : Q;
  arg_longitude : Q;
  arg_nowLookup : Z;
  arg_response : AxiosResult;
  arg_nowInsert : Z
}.

Definition call (cache : SpeedLimitCache) (a : CallArgs) : CachedCall :=
  getSpeedLimitCached cache (arg_latitude a) (arg_longitude a)
    (arg_nowLookup a) (arg_response a) (arg_nowInsert a).

Definition run (calls : list CallArgs) : SpeedLimitCache :=
  fold_left (fun c a => cache_after (call c a)) calls [].

(** The keys in iteration order, and the shape every cache built by
    [getSpeedLimitCached] has. *)
Definition keys (m : SpeedLimitCache) : list CacheKey := map fst m.

Definition wellFormed (m : SpeedLimitCache) : Prop :=
  NoDup (keys m) /\ (Map_size m <= CACHE_MAX_ENTRIES)%nat.

End Cache.

(* ================================================================== *)
(** ** App.tsx: the trip session

    The component is kept in
    [src/mobile/TelematicsApp/scripts/emulator-simulate-drive.ps1], after
    the script of that name; line numbers below are lines of that file. *)
(* ================================================================== *)

Module Engine.
Import SpeedLimit.

Local Open Scope Q_scope.

Inductive TripStatus : Type := idle | driving.

(** [lastLocationRef.current] *)
Record LastLocation : Type := mkLoc { lat : Q; lng : Q; time : Z }.

(** An element of [tripLocationBuffer.current]. *)
Record BufferPoint : Type := mkPoint {
  pt_lat : Q; pt_lng : Q; pt_time : Z; pt_speed : Q
}.

Inductive HarshKind : Type := braking | acceleration.

(** An element of [harshEventsRef.current]. The source stores the
    timestamp as [new Date(now).toISOString()], which names the same
    millisecond; the millisecond count is kept. *)
Record HarshEvent : Type := mkHarsh {
  ev_type : HarshKind;
  ev_timestamp : Z;
  ev_latitude : Q;
  ev_longitude : Q;
  ev_speed : Q
}.

(** An element of [recentSpeedSamplesRef.current]. *)
Record SpeedSample : Type := mkSample { sm_speedKmh : Q; sm_time : Z }.

(** What the location source delivers. A coordinate that is missing or
    does not convert to a number is [None]; [timestamp] is [None] when it
    is not a number. *)
Record Coords : Type := mkCoords {
  latitude : option Q;
  longitude : option Q;
  accuracy : option Q;
  speed : option Q
}.

Record Position : Type := mkPosition {
  coords : option Coords;
  timestamp : option Z
}.

(** *** The reference cells, grouped by the component that owns them *)

Record Motion : Type := mkMotion {
  lastLocationRef : option LastLocation;
  speedSumRef : Q;
  speedCountRef : Z;
  tripLocationBuffer : list BufferPoint;
  smoothedSpeedRef : Q;
  recentSpeedSamplesRef : list SpeedSample;
  autoStartInProgressRef : bool
}.

Record Harsh : Type := mkHarshState {
  lastHarshBrakeTimeRef : Z;
  lastHarshAccelTimeRef : Z;
  harshBrakeCountRef : Z;
  harshAccelCountRef : Z;
  harshEventsRef : list HarshEvent
}.

(** [crashTimeout] is the pending 200 ms timer of the accelerometer
    effect: [true] while one is armed. *)
Record Crash : Type := mkCrash {
  accelerometerMagnitudeRef : Q;
  crashDetectedRef : bool;
  crashLatRef : option Q;
  crashLngRef : option Q;
  speedBasedCrashRef : bool;
  sensorBasedCrashRef : bool;
  crashTimeout : bool
}.

Record Speeding : Type := mkSpeeding {
  speedingDurationRef : Q;
  speedingViolationsRef : Z;
  maxSpeedOverLimitRef : Q;
  lastSpeedCheckTimeRef : Z;
  currentSpeedLimitRef : option Z;
  wasSpeedingRef : bool;
  speedingStartTimeRef : option Z
}.

(** React state that the handlers read or that reports their outcome.
    The display mirrors of the counters ([harshBrakeCount],
    [harshAccelerationCount], [currentSpeedLimit], [speedingViolations])
    copy a reference cell and are never read back; they are left out. *)
Record Ui : Type := mkUi {
  status : TripStatus;
  speedKmh : Q;
  safetyScore : option Q;
  error : option string;
  isStartingTrip : bool
}.

Record App : Type := mkApp {
  tripIdRef : option Z;
  batteryPromptShownRef : bool;
  motion : Motion;
  harsh : Harsh;
  crash : Crash;
  speeding : Speeding;
  ui : Ui
}.

(** The state on mount: every [useRef]/[useState] initial value. *)
Definition initialApp : App :=
  {| tripIdRef := None;
     batteryPromptShownRef := false;
     motion := {| lastLocationRef := None; speedSumRef := 0; speedCountRef := 0%Z;
                  tripLocationBuffer := []; smoothedSpeedRef := 0;
                  recentSpeedSamplesRef := []; autoStartInProgressRef := false |};
     harsh := {| lastHarshBrakeTimeRef := 0%Z; lastHarshAccelTimeRef := 0%Z;
                 harshBrakeCountRef := 0%Z; harshAccelCountRef := 0%Z;
                 harshEventsRef := [] |};
     crash := {| accelerometerMagnitudeRef := 9.8; crashDetectedRef := false;
                 crashLatRef := None; crashLngRef := None;
                 speedBasedCrashRef := false; sensorBasedCrashRef := false;
                 crashTimeout := false |};
     speeding := {| speedingDurationRef := 0; speedingViolationsRef := 0%Z;
                    maxSpeedOverLimitRef := 0; lastSpeedCheckTimeRef := 0%Z;
                    currentSpeedLimitRef := None; wasSpeedingRef := false;
                    speedingStartTimeRef := None |};
     ui := {| status := idle; speedKmh := 0; safetyScore := None; error := None;
              isStartingTrip := false |} |}.

Definition set_motion (m : Motion) (s : App) : App :=
  mkApp (tripIdRef s) (batteryPromptShownRef s) m (harsh s) (crash s) (speeding s) (ui s).
Definition set_harsh (h : Harsh) (s : App) : App :=
  mkApp (tripIdRef s) (batteryPromptShownRef s) (motion s) h (crash s) (speeding s) (ui s).
Definition set_crash (c : Crash) (s : App) : App :=
  mkApp (tripIdRef s) (batteryPromptShownRef s) (motion s) (harsh s) c (speeding s) (ui s).
Definition set_speeding (sp : Speeding) (s : App) : App :=
  mkApp (tripIdRef s) (batteryPromptShownRef s) (motion s) (harsh s) (crash s) sp (ui s).
Definition set_ui (u : Ui) (s : App) : App :=
  mkApp (tripIdRef s) (batteryPromptShownRef s) (motion s) (harsh s) (crash s) (speeding s) u.

Definition set_error (e : option string) (u : Ui) : Ui :=
  mkUi (status u) (speedKmh u) (safetyScore u) e (isStartingTrip u).
Definition set_isStartingTrip (b : bool) (u : Ui) : Ui :=
  mkUi (status u) (speedKmh u) (safetyScore u) (error u) b.
Definition set_speedKmh (v : Q) (u : Ui) : Ui :=
  mkUi (status u) v (safetyScore u) (error u) (isStartingTrip u).
Definition set_autoStartInProgressRef (b : bool) (m : Motion) : Motion :=
  mkMotion (lastLocationRef m) (speedSumRef m) (speedCountRef m)
           (tripLocationBuffer m) (smoothedSpeedRef m) (recentSpeedSamplesRef m) b.

(** Requests that a handler sends out and whose answer comes back later
    as an event of its own. *)
Inductive Command : Type :=
| CreateTrip (startLatitude startLongitude : Q)
| ResolveLimit (latitude longitude : Q) (time : Z) (rawSpeed : Q)
| EndTripRequest (tripId : Z) (endLatitude endLongitude : Q) (endTime : Z)
    (averageSpeedKmh totalDistanceKm : Q)
    (harshBrakingCount harshAccelerationCount : Z)
    (crashDetected : bool) (crashLatitude crashLongitude : option Q)
    (harshEvents : list HarshEvent)
    (speedingDuration speedingViolations : Z) (maxSpeedOverLimit : Q).

(** [Math.round(x * 10^k) / 10^k] for k = 1, 2. *)
Definition round1 (x : Q) : Q := inject_Z (Math_round (x * 10)) / 10.
Definition round2 (x : Q) : Q := inject_Z (Math_round (x * 100)) / 100.

(** A number used as a condition: zero is falsy. *)
Definition truthy (t : option Z) : bool :=
  match t with
  | Some v => negb (v =? 0)%Z
  | None => false
  end.

Definition isSome {A} (o : option A) : bool :=
  match o with Some _ => true | None => false end.

(** [e?.message || fallback] *)
Definition messageOr (m fallback : string) : string :=
  match m with
  | EmptyString => fallback
  | _ => m
  end.

Section Handlers.

(** [distanceKm(lat1, lng1, lat2, lng2)]: the haversine distance in km. *)
Variable distanceKm : Q -> Q -> Q -> Q -> Q.
(** [Math.sqrt] *)
Variable Math_sqrt : Q -> Q.
(** [Platform.OS === 'android'] *)
Variable android : bool.

(** *** Location callback, lines 186-240: time and speed *)

(** Line 199: seconds are scaled to milliseconds; a timestamp that is
    not a number is replaced by [Date.now()]. *)
Definition sampleTime (ts : option Z) (dateNow : Z) : Z :=
  match ts with
  | Some t => if (t <? 1000000000000)%Z then (t * 1000)%Z else t
  | None => dateNow
  end.

(** Line 206: the device speed in km/h when present and not negative. *)
Definition coordsSpeedKmh (c : Coords) : option Q :=
  match speed c with
  | Some coordsSpeedMs =>
      if Qle_bool 0 coordsSpeedMs then Some (coordsSpeedMs * 3.6) else None
  | None => None
  end.

(** Lines 208-221: the raw speed of the new fix. *)
Definition computeSpeed (prev : option LastLocation) (time : Z) (accuracy : Q)
    (deviceSpeedKmh : option Q) (latitude longitude : Q) : Q :=
  match deviceSpeedKmh with
  | Some v => v
  | None =>
      match prev with
      | Some p =>
          let timeDeltaMs := (time - Engine.time p)%Z in
          if (1500 <=? timeDeltaMs)%Z then
            let distKm := distanceKm (lat p) (lng p) latitude longitude in
            let timeHours := inject_Z timeDeltaMs / 1000 / 3600 in
            let accuracyOk := Qle_bool accuracy 35 || Qlt_bool 500 accuracy in
            if Qlt_bool 0 timeHours && Qle_bool 0.015 distKm && accuracyOk
            then distKm / timeHours
            else 0
          else 0
      | None => 0
      end
  end.

(** Lines 202-221 for one fix: [accuracy ?? 999], the device speed, and
    the reference point [prev] read from [lastLocationRef]. *)
Definition rawSpeedOf (prev : option LastLocation) (c : Coords)
    (latitude longitude : Q) (time : Z) : Q :=
  let accuracy := match accuracy c with Some a => a | None => 999 end in
  computeSpeed prev time accuracy (coordsSpeedKmh c) latitude longitude.

(** Lines 222-224: exponential smoothing, snapping below 2 km/h. *)
Definition smooth (smoothed speed : Q) : Q :=
  let alpha := 0.35 in
  let next := smoothed * (1 - alpha) + speed * alpha in
  if Qlt_bool speed 2 then speed else next.

(** Lines 236-240: the reference point moves only after 5 m. *)
Definition nextLastLocation (prev : option LastLocation)
    (latitude longitude : Q) (time : Z) : option LastLocation :=
  let minDistKm := 0.005 in
  let moved :=
    match prev with
    | None => true
    | Some p => Qle_bool minDistKm (distanceKm (lat p) (lng p) latitude longitude)
    end in
  if moved || negb (isSome prev)
  then Some {| lat := latitude; lng := longitude; time := time |}
  else prev.

(** *** Start and end of a trip *)

(** [handleStartTrip] up to the awaited [createTrip]. The handler reads
    [isStartingTrip] through its closure; [isStartingTripSeen] is the
    value that closure holds. *)
Definition handleStartTrip_call (isStartingTripSeen : bool) (s : App)
  : App * list Command :=
  if isStartingTripSeen then (s, [])
  else
    let s1 := set_ui (set_error None (ui s)) s in
    match lastLocationRef (motion s1) with
    | None => (set_ui (set_error (Some "Wait for location"%string) (ui s1)) s1, [])
    | Some pos =>
        (set_ui (set_isStartingTrip true (ui s1)) s1, [CreateTrip (lat pos) (lng pos)])
    end.

(** [handleStartTrip] from the answer of [createTrip] on: the reset of
    lines 536-562, the [catch] and the [finally]. [Return id] carries
    [trip.id], which is [None] when the answer has no id. The awaited
    notification call cannot fail the handler and is taken as immediate. *)
Definition handleStartTrip_resume (s : App) (trip : Completion (option Z)) : App :=
  let s1 :=
    match trip with
    | Return id =>
        {| tripIdRef := id;
           batteryPromptShownRef := if android then true else batteryPromptShownRef s;
           motion :=
             {| lastLocationRef := lastLocationRef (motion s);
                speedSumRef := 0;
                speedCountRef := 0%Z;
                tripLocationBuffer := [];
                smoothedSpeedRef := smoothedSpeedRef (motion s);
                recentSpeedSamplesRef := recentSpeedSamplesRef (motion s);
                autoStartInProgressRef := autoStartInProgressRef (motion s) |};
           harsh :=
             {| lastHarshBrakeTimeRef := 0%Z;
                lastHarshAccelTimeRef := 0%Z;
                harshBrakeCountRef := 0%Z;
                harshAccelCountRef := 0%Z;
                harshEventsRef := [] |};
           crash :=
             {| accelerometerMagnitudeRef := accelerometerMagnitudeRef (crash s);
                crashDetectedRef := false;
                crashLatRef := None;
                crashLngRef := None;
                speedBasedCrashRef := false;
                sensorBasedCrashRef := false;
                crashTimeout := crashTimeout (crash s) |};
           speeding :=
             {| speedingDurationRef := 0;
                speedingViolationsRef := 0%Z;
                maxSpeedOverLimitRef := 0;
                lastSpeedCheckTimeRef := 0%Z;
                currentSpeedLimitRef := None;
                wasSpeedingRef := false;
                speedingStartTimeRef := None |};
           ui :=
             {| status := driving;
                speedKmh := speedKmh (ui s);
                safetyScore := None;
                error := error (ui s);
                isStartingTrip := isStartingTrip (ui s) |} |}
    | Throw m =>
        set_ui (set_error (Some (messageOr m "Failed to start trip")) (ui s)) s
    end in
  set_motion (set_autoStartInProgressRef false (motion s1))
    (set_ui (set_isStartingTrip false (ui s1)) s1).


(** Lines 606-611: the length of the buffered path. *)
Fixpoint totalDistanceKm (acc : Q) (buffer : list BufferPoint) : Q :=
  match buffer with
  | a :: ((b :: _) as rest) =>
      totalDistanceKm (acc + distanceKm (pt_lat a) (pt_lng a) (pt_lat b) (pt_lng b)) rest
  | _ => acc
  end.

(** Lines 593-599: close the speeding episode that is still open. *)
Definition finalizeSpeeding (sp : Speeding) (now : Z) : Speeding :=
  match speedingStartTimeRef sp with
  | Some start =>
      if wasSpeedingRef sp && truthy (speedingStartTimeRef sp) then
        let duration := inject_Z (now - start) / 1000 in
        {| speedingDurationRef := speedingDurationRef sp + duration;
           speedingViolationsRef := speedingViolationsRef sp;
           maxSpeedOverLimitRef := maxSpeedOverLimitRef sp;
           lastSpeedCheckTimeRef := lastSpeedCheckTimeRef sp;
           currentSpeedLimitRef := currentSpeedLimitRef sp;
           wasSpeedingRef := false;
           speedingStartTimeRef := speedingStartTimeRef sp |}
      else sp
  | None => sp
  end.

(** [handleEndTrip] up to the awaited [endTrip]; [now] is the clock
    reading of [new Date()]. *)
Definition handleEndTrip_call (s : App) (now : Z) : App * list Command :=
  match tripIdRef s with
  | None => (s, [])
  | Some tripId =>
      let s1 := set_ui (set_error None (ui s)) s in
      match lastLocationRef (motion s1) with
      | None => (set_ui (set_error (Some "Wait for location"%string) (ui s1)) s1, [])
      | Some pos =>
          let sp := finalizeSpeeding (speeding s1) now in
          let m := motion s1 in
          let avgSpeed :=
            if (0 <? speedCountRef m)%Z
            then speedSumRef m / inject_Z (speedCountRef m)
            else speedKmh (ui s1) in
          let total := totalDistanceKm 0 (tripLocationBuffer m) in
          (set_speeding sp s1,
           [EndTripRequest tripId (lat pos) (lng pos) now
              (round1 avgSpeed) (round2 total)
              (harshBrakeCountRef (harsh s1)) (harshAccelCountRef (harsh s1))
              (crashDetectedRef (crash s1)) (crashLatRef (crash s1)) (crashLngRef (crash s1))
              (harshEventsRef (harsh s1))
              (Math_round (speedingDurationRef sp)) (speedingViolationsRef sp)
              (round1 (maxSpeedOverLimitRef sp))])
      end
  end.

(** [handleEndTrip] from the answer of [endTrip] on. [Return score]
    carries [ended.safety_score]. *)
Definition handleEndTrip_resume (s : App) (ended : Completion (option Q)) : App :=
  match ended with
  | Return score =>
      {| tripIdRef := None;
         batteryPromptShownRef := batteryPromptShownRef s;
         motion :=
           {| lastLocationRef := lastLocationRef (motion s);
              speedSumRef := speedSumRef (motion s);
              speedCountRef := speedCountRef (motion s);
              tripLocationBuffer := [];
              smoothedSpeedRef := smoothedSpeedRef (motion s);
              recentSpeedSamplesRef := recentSpeedSamplesRef (motion s);
              autoStartInProgressRef := false |};
         harsh :=
           {| lastHarshBrakeTimeRef := lastHarshBrakeTimeRef (harsh s);
              lastHarshAccelTimeRef := lastHarshAccelTimeRef (harsh s);
              harshBrakeCountRef := harshBrakeCountRef (harsh s);
              harshAccelCountRef := harshAccelCountRef (harsh s);
              harshEventsRef := [] |};
         crash := crash s;
         speeding := speeding s;
         ui :=
           {| status := idle;
              speedKmh := speedKmh (ui s);
              safetyScore := Some (match score with Some v => v | None => 0 end);
              error := error (ui s);
              isStartingTrip := isStartingTrip (ui s) |} |}
  | Throw m =>
      set_ui (set_error (Some (messageOr m "Failed to end trip")) (ui s)) s
  end.


(** *** Location callback, lines 246-261: automatic start *)

(** The samples of the last 30 s, with the new one, and whether the
    samples of the last 12 s call for a start. *)
Definition autoStartWindow (recent : list SpeedSample) (rawSpeed : Q) (time : Z)
  : list SpeedSample * bool :=
  let windowMs := 30000%Z in
  let now := time in
  let pushed := recent ++ [ {| sm_speedKmh := rawSpeed; sm_time := time |} ] in
  let kept := filter (fun x => (now - sm_time x <=? windowMs)%Z) pushed in
  let last10 := filter (fun x => (now - sm_time x <=? 12000)%Z) kept in
  let fire :=
    if (3 <=? length last10)%nat then
      let avg := fold_left (fun a x => a + sm_speedKmh x) last10 0
                 / inject_Z (Z.of_nat (length last10)) in
      Qle_bool 15 avg
    else false in
  (kept, fire).

(** *** Location callback, lines 267-342: harsh events *)

(** [isGpsGood]; [accuracy || 999] treats a zero accuracy as missing. *)
Definition isGpsGood (accuracy : option Q) (timeSinceLastUpdate : Z) : bool :=
  let accuracy :=
    match accuracy with
    | Some a => if Qeq_bool a 0 then 999 else a
    | None => 999
    end in
  if Qle_bool accuracy 20 then true
  else if Qle_bool accuracy 30 && (timeSinceLastUpdate <=? 3000)%Z then true
  else false.

(** Lines 277-306: which kind of event the sample is a candidate for. *)
Definition harshCandidates (gpsGood sensorFlagged : bool) (prevSpeed rawSpeed : Q)
  : bool * bool :=
  let speedDrop := prevSpeed - rawSpeed in
  let speedRise := rawSpeed - prevSpeed in
  let speedDropPercent := if Qlt_bool 0 prevSpeed then speedDrop / prevSpeed * 100 else 0 in
  let speedRisePercent := if Qlt_bool 0 prevSpeed then speedRise / prevSpeed * 100 else 0 in
  let speedFlaggedBrake := Qle_bool 30 speedDropPercent in
  let speedFlaggedAccel := Qle_bool 30 speedRisePercent in
  if gpsGood then
    (speedFlaggedBrake && sensorFlagged, speedFlaggedAccel && sensorFlagged)
  else if sensorFlagged then
    if speedFlaggedBrake then (true, false)
    else if speedFlaggedAccel then (false, true)
    else (true, false)
  else (false, false).

(** Lines 308-322 *)
Definition recordBrake (h : Harsh) (countBrake : bool) (now : Z)
    (latitude longitude rawSpeed : Q) : Harsh :=
  if countBrake && (3000 <=? now - lastHarshBrakeTimeRef h)%Z then
    {| lastHarshBrakeTimeRef := now;
       lastHarshAccelTimeRef := lastHarshAccelTimeRef h;
       harshBrakeCountRef := (harshBrakeCountRef h + 1)%Z;
       harshAccelCountRef := harshAccelCountRef h;
       harshEventsRef := harshEventsRef h ++
         [ {| ev_type := braking; ev_timestamp := now; ev_latitude := latitude;
              ev_longitude := longitude; ev_speed := rawSpeed |} ] |}
  else h.

(** Lines 323-335 *)
Definition recordAccel (h : Harsh) (countAccel : bool) (now : Z)
    (latitude longitude rawSpeed : Q) : Harsh :=
  if countAccel && (3000 <=? now - lastHarshAccelTimeRef h)%Z then
    {| lastHarshBrakeTimeRef := lastHarshBrakeTimeRef h;
       lastHarshAccelTimeRef := now;
       harshBrakeCountRef := harshBrakeCountRef h;
       harshAccelCountRef := (harshAccelCountRef h + 1)%Z;
       harshEventsRef := harshEventsRef h ++
         [ {| ev_type := acceleration; ev_timestamp := now; ev_latitude := latitude;
              ev_longitude := longitude; ev_speed := rawSpeed |} ] |}
  else h.

(** Lines 268-336: the harsh-event block for one fix of an active trip.
    [prev] is the reference point read at the top of the callback. *)
Definition detectHarsh (h : Harsh) (prev : option LastLocation) (speedCount : Z)
    (accuracy : option Q) (accelMagnitude prevSpeed rawSpeed : Q) (time : Z)
    (latitude longitude : Q) : Harsh :=
  match prev with
  | Some p =>
      if (2 <=? speedCount)%Z then
        let timeDeltaSec := inject_Z (time - Engine.time p) / 1000 in
        if Qle_bool 0.5 timeDeltaSec && Qle_bool timeDeltaSec 5 then
          let gpsGood := isGpsGood accuracy (time - Engine.time p) in
          let sensorFlagged := Qlt_bool 13 accelMagnitude in
          let '(countBrake, countAccel) :=
            harshCandidates gpsGood sensorFlagged prevSpeed rawSpeed in
          let now := time in
          recordAccel (recordBrake h countBrake now latitude longitude rawSpeed)
                      countAccel now latitude longitude rawSpeed
        else h
      else h
  | None => h
  end.

(** *** Location callback, lines 338-352: crash *)

(** Lines 338-341: the sudden-stop signal. *)
Definition speedCrashSignal (prev : option LastLocation) (speedCount : Z)
    (prevSpeed rawSpeed : Q) (time : Z) : bool :=
  match prev with
  | Some p =>
      if (2 <=? speedCount)%Z then
        let timeDeltaSec := inject_Z (time - Engine.time p) / 1000 in
        Qle_bool 20 prevSpeed && Qlt_bool rawSpeed 5 && Qlt_bool timeDeltaSec 2
      else false
  | None => false
  end.

(** Lines 339-352: raise the speed signal, then fuse it with the
    sensor signal. *)
Definition detectCrash (c : Crash) (signal : bool) (latitude longitude : Q) : Crash :=
  let speedBased := if signal then true else speedBasedCrashRef c in
  if speedBased && sensorBasedCrashRef c && negb (crashDetectedRef c) then
    {| accelerometerMagnitudeRef := accelerometerMagnitudeRef c;
       crashDetectedRef := true;
       crashLatRef := Some latitude;
       crashLngRef := Some longitude;
       speedBasedCrashRef := false;
       sensorBasedCrashRef := false;
       crashTimeout := crashTimeout c |}
  else
    {| accelerometerMagnitudeRef := accelerometerMagnitudeRef c;
       crashDetectedRef := crashDetectedRef c;
       crashLatRef := crashLatRef c;
       crashLngRef := crashLngRef c;
       speedBasedCrashRef := speedBased;
       sensorBasedCrashRef := sensorBasedCrashRef c;
       crashTimeout := crashTimeout c |}.

(** *** Location callback, lines 354-397: the 10 s speed-limit check *)

Definition speedCheckDue (sp : Speeding) (time : Z) : bool :=
  (10000 <=? time - lastSpeedCheckTimeRef sp)%Z.

Definition markSpeedCheck (sp : Speeding) (time : Z) : Speeding :=
  {| speedingDurationRef := speedingDurationRef sp;
     speedingViolationsRef := speedingViolationsRef sp;
     maxSpeedOverLimitRef := maxSpeedOverLimitRef sp;
     lastSpeedCheckTimeRef := time;
     currentSpeedLimitRef := currentSpeedLimitRef sp;
     wasSpeedingRef := wasSpeedingRef sp;
     speedingStartTimeRef := speedingStartTimeRef sp |}.

(** Lines 360-393: the [then] callback, run when the cached resolver
    answers; [time] and [rawSpeed] are those of the fix that asked. *)
Definition applySpeedLimit (sp : Speeding) (speedLimit : Z) (time : Z) (rawSpeed : Q)
  : Speeding :=
  let tolerance := 5 in
  let isSpeeding := Qlt_bool (inject_Z speedLimit + tolerance) rawSpeed in
  let sp1 :=
    if isSpeeding && negb (wasSpeedingRef sp) then
      (* started speeding *)
      {| speedingDurationRef := speedingDurationRef sp;
         speedingViolationsRef := (speedingViolationsRef sp + 1)%Z;
         maxSpeedOverLimitRef := maxSpeedOverLimitRef sp;
         lastSpeedCheckTimeRef := lastSpeedCheckTimeRef sp;
         currentSpeedLimitRef := Some speedLimit;
         wasSpeedingRef := true;
         speedingStartTimeRef := Some time |}
    else if negb isSpeeding && wasSpeedingRef sp then
      (* stopped speeding *)
      match speedingStartTimeRef sp with
      | Some start =>
          if truthy (speedingStartTimeRef sp) then
            let duration := inject_Z (time - start) / 1000 in
            {| speedingDurationRef := speedingDurationRef sp + duration;
               speedingViolationsRef := speedingViolationsRef sp;
               maxSpeedOverLimitRef := maxSpeedOverLimitRef sp;
               lastSpeedCheckTimeRef := lastSpeedCheckTimeRef sp;
               currentSpeedLimitRef := Some speedLimit;
               wasSpeedingRef := false;
               speedingStartTimeRef := None |}
          else
            {| speedingDurationRef := speedingDurationRef sp;
               speedingViolationsRef := speedingViolationsRef sp;
               maxSpeedOverLimitRef := maxSpeedOverLimitRef sp;
               lastSpeedCheckTimeRef := lastSpeedCheckTimeRef sp;
               currentSpeedLimitRef := Some speedLimit;
               wasSpeedingRef := false;
               speedingStartTimeRef := speedingStartTimeRef sp |}
      | None =>
          {| speedingDurationRef := speedingDurationRef sp;
             speedingViolationsRef := speedingViolationsRef sp;
             maxSpeedOverLimitRef := maxSpeedOverLimitRef sp;
             lastSpeedCheckTimeRef := lastSpeedCheckTimeRef sp;
             currentSpeedLimitRef := Some speedLimit;
             wasSpeedingRef := false;
             speedingStartTimeRef := None |}
      end
    else
      {| speedingDurationRef := speedingDurationRef sp;
         speedingViolationsRef := speedingViolationsRef sp;
         maxSpeedOverLimitRef := maxSpeedOverLimitRef sp;
         lastSpeedCheckTimeRef := lastSpeedCheckTimeRef sp;
         currentSpeedLimitRef := Some speedLimit;
         wasSpeedingRef := wasSpeedingRef sp;
         speedingStartTimeRef := speedingStartTimeRef sp |} in
  (* track max speed over limit *)
  let overLimit := rawSpeed - inject_Z speedLimit in
  if isSpeeding && Qlt_bool (maxSpeedOverLimitRef sp1) overLimit then
    {| speedingDurationRef := speedingDurationRef sp1;
       speedingViolationsRef := speedingViolationsRef sp1;
       maxSpeedOverLimitRef := overLimit;
       lastSpeedCheckTimeRef := lastSpeedCheckTimeRef sp1;
       currentSpeedLimitRef := currentSpeedLimitRef sp1;
       wasSpeedingRef := wasSpeedingRef sp1;
       speedingStartTimeRef := speedingStartTimeRef sp1 |}
  else sp1.

(** The promise of [getSpeedLimitCached] settles: [then] or [catch]. *)
Definition onLimitResolved (s : App) (time : Z) (rawSpeed : Q)
    (limitData : Completion SpeedLimitInfo) : App :=
  match limitData with
  | Return d => set_speeding (applySpeedLimit (speeding s) (speedLimit d) time rawSpeed) s
  | Throw _ => s
  end.

(** *** The location callback *)

Definition lastSpeed (buffer : list BufferPoint) : Q :=
  match buffer with
  | [] => 0
  | _ => pt_speed (last buffer (mkPoint 0 0 0 0))
  end.

(** The callback for a fix whose coordinates are numbers. *)
Definition onFix (s : App) (c : Coords) (latitude longitude : Q) (time : Z)
  : App * list Command :=
  let m := motion s in
  let prev := lastLocationRef m in
  let rawSpeed := rawSpeedOf prev c latitude longitude time in
  let smoothed := smooth (smoothedSpeedRef m) rawSpeed in
  let displaySpeed := round1 smoothed in
  let active := isSome (tripIdRef s) in
  let speedSum := if active then speedSumRef m + rawSpeed else speedSumRef m in
  let speedCount := if active then (speedCountRef m + 1)%Z else speedCountRef m in
  let prevSpeed := lastSpeed (tripLocationBuffer m) in
  let lastLocation := nextLastLocation prev latitude longitude time in
  let auto := negb active && negb (autoStartInProgressRef m) in
  let '(recent, fire) :=
    if auto then autoStartWindow (recentSpeedSamplesRef m) rawSpeed time
    else (recentSpeedSamplesRef m, false) in
  let m1 :=
    {| lastLocationRef := lastLocation;
       speedSumRef := speedSum;
       speedCountRef := speedCount;
       tripLocationBuffer :=
         if active
         then tripLocationBuffer m ++
              [ {| pt_lat := latitude; pt_lng := longitude; pt_time := time;
                   pt_speed := rawSpeed |} ]
         else tripLocationBuffer m;
       smoothedSpeedRef := smoothed;
       recentSpeedSamplesRef := recent;
       autoStartInProgressRef := if fire then true else autoStartInProgressRef m |} in
  let u1 := set_speedKmh displaySpeed (set_error None (ui s)) in
  let s1 := set_ui u1 (set_motion m1 s) in
  if active then
    let h := detectHarsh (harsh s) prev speedCount (Engine.accuracy c)
               (accelerometerMagnitudeRef (crash s)) prevSpeed rawSpeed time
               latitude longitude in
    let cr := detectCrash (crash s)
                (speedCrashSignal prev speedCount prevSpeed rawSpeed time)
                latitude longitude in
    let due := speedCheckDue (speeding s) time in
    let sp := if due then markSpeedCheck (speeding s) time else speeding s in
    (set_speeding sp (set_crash cr (set_harsh h s1)),
     if due then [ResolveLimit latitude longitude time rawSpeed] else [])
  else if fire then handleStartTrip_call false s1
  else (s1, []).

(** The [watchPosition] callback. A fix without numeric coordinates is
    dropped before anything is written. *)
Definition onPosition (s : App) (position : Position) (dateNow : Z)
  : App * list Command :=
  match coords position with
  | Some c =>
      match latitude c, longitude c with
      | Some latitude, Some longitude =>
          onFix s c latitude longitude (sampleTime (timestamp position) dateNow)
      | _, _ => (s, [])
      end
  | None => (s, [])
  end.

(** *** Accelerometer callback, lines 456-470, and its timer *)

Definition onAccelerometer (s : App) (x y z : Q) : App :=
  let magnitude := Math_sqrt (x * x + y * y + z * z) in
  let c := crash s in
  let impact := Qlt_bool 39 magnitude && isSome (tripIdRef s) in
  set_crash
    {| accelerometerMagnitudeRef := magnitude;
       crashDetectedRef := crashDetectedRef c;
       crashLatRef := crashLatRef c;
       crashLngRef := crashLngRef c;
       speedBasedCrashRef := speedBasedCrashRef c;
       sensorBasedCrashRef := if impact then true else sensorBasedCrashRef c;
       crashTimeout := if impact then true else crashTimeout c |} s.

(** The 200 ms timer fires, if one is armed. *)
Definition onCrashTimeout (s : App) : App :=
  let c := crash s in
  if crashTimeout c then
    set_crash
      {| accelerometerMagnitudeRef := accelerometerMagnitudeRef c;
         crashDetectedRef := crashDetectedRef c;
         crashLatRef := crashLatRef c;
         crashLngRef := crashLngRef c;
         speedBasedCrashRef := speedBasedCrashRef c;
         sensorBasedCrashRef := false;
         crashTimeout := false |} s
  else s.

(** *** The event loop *)

Inductive Event : Type :=
| LocationUpdate (position : Position) (dateNow : Z)
| AccelerometerSample (x y z : Q)
| CrashTimeoutFired
| LimitResolved (time : Z) (rawSpeed : Q) (limitData : Completion SpeedLimitInfo)
| StartPressed
| TripCreated (trip : Completion (option Z))
| EndPressed (now : Z)
| TripEnded (ended : Completion (option Q)).

Definition step (s : App) (e : Event) : App * list Command :=
  match e with
  | LocationUpdate position dateNow => onPosition s position dateNow
  | AccelerometerSample x y z => (onAccelerometer s x y z, [])
  | CrashTimeoutFired => (onCrashTimeout s, [])
  | LimitResolved time rawSpeed limitData => (onLimitResolved s time rawSpeed limitData, [])
  | StartPressed => handleStartTrip_call (isStartingTrip (ui s)) s
  | TripCreated trip => (handleStartTrip_resume s trip, [])
  | EndPressed now => handleEndTrip_call s now
  | TripEnded ended => (handleEndTrip_resume s ended, [])
  end.

Definition run (s : App) (events : list Event) : App :=
  fold_left (fun acc e => fst (step acc e)) events s.

(** How many steps of a run take [crashDetectedRef] from false to true. *)
Fixpoint crashTransitions (s : App) (events : list Event) : nat :=
  match events with
  | [] => O
  | e :: rest =>
      let s' := fst (step s e) in
      ((if negb (crashDetectedRef (crash s)) && crashDetectedRef (crash s')
        then 1 else 0) + crashTransitions s' rest)%nat
  end.

End Handlers.

(** *** Observations the properties are stated with *)

(** The per-trip aggregates: location buffer, speed sum and count, harsh
    counts and list, crash flags and place, speeding state. *)
Definition aggregates (s : App) :=
  (tripLocationBuffer (motion s), speedSumRef (motion s), speedCountRef (motion s),
   harsh s,
   (crashDetectedRef (crash s), crashLatRef (crash s), crashLngRef (crash s),
    speedBasedCrashRef (crash s), sensorBasedCrashRef (crash s)),
   speeding s).


(** Events that do not begin a new trip. *)
Definition withinTrip (e : Event) : bool :=
  match e with
  | TripCreated _ => false
  | _ => true
  end.

(** The episode start is set exactly when the speeding flag is. *)
Definition speedingConsistent (sp : Speeding) : Prop :=
  speedingStartTimeRef sp <> None <-> wasSpeedingRef sp = true.

(** The time of the last counted event of a kind. *)
Definition lastCounted (h : Harsh) (k : HarshKind) : Z :=
  match k with
  | braking => lastHarshBrakeTimeRef h
  | acceleration => lastHarshAccelTimeRef h
  end.

(** Any two events of one kind are at least 3000 ms apart, the later in
    the list being the later in time. *)
Definition sameKindSpaced (events : list HarshEvent) : Prop :=
  ForallOrdPairs
    (fun e1 e2 => ev_type e1 = ev_type e2 -> (3000 <= ev_timestamp e2 - ev_timestamp e1)%Z)
    events.

Definition harshInvariant (h : Harsh) : Prop :=
  sameKindSpaced (harshEventsRef h) /\
  Forall (fun e => (ev_timestamp e <= lastCounted h (ev_type e))%Z) (harshEventsRef h).

End Engine.

(* ================================================================== *)
(** ** api.js: the end-of-trip request *)
(* ================================================================== *)

Module Api.
Import Engine.

(** The body [endTrip] sends with [axios.patch]. The two crash
    coordinates are properties the object may lack: [None]. *)
Record EndTripPayload : Type := mkPayload {
  end_latitude : Q;
  end_longitude : Q;
  end_time : Z;
  average_speed_kmh : Q;
  total_distance_km : Q;
  harsh_braking_count : Z;
  harsh_acceleration_count : Z;
  crash_detected : bool;
  harsh_events : list HarshEvent;
  crash_latitude : option Q;
  crash_longitude : option Q
}.

(** [endTrip], up to the request: the payload built from its twelve
    parameters ([tripId] goes into the URL). An array is truthy, so
    [harshEvents || []] is [harshEvents]. *)
Definition endTrip_payload (endLatitude endLongitude : Q) (endTimeIso : Z)
    (averageSpeedKmh totalDistanceKm : Q)
    (harshBrakingCount harshAccelerationCount : Z)
    (crashDetected : bool) (crashLatitude crashLongitude : option Q)
    (harshEvents : list HarshEvent) : EndTripPayload :=
  let withLocation :=
    crashDetected && isSome crashLatitude && isSome crashLongitude in
  {| end_latitude := endLatitude;
     end_longitude := endLongitude;
     end_time := endTimeIso;
     average_speed_kmh := averageSpeedKmh;
     total_distance_km := totalDistanceKm;
     harsh_braking_count := harshBrakingCount;
     harsh_acceleration_count := harshAccelerationCount;
     crash_detected := crashDetected;
     harsh_events := harshEvents;
     crash_latitude := if withLocation then crashLatitude else None;
     crash_longitude := if withLocation then crashLongitude else None |}.

(** The call in [handleEndTrip] passes fifteen arguments to the twelve
    parameters: the last three (speeding duration, violations, maximum
    over the limit) are bound to nothing. *)
Definition payloadOf (c : Command) : option EndTripPayload :=
  match c with
  | EndTripRequest _ endLatitude endLongitude endTime averageSpeedKmh totalDistanceKm
      harshBrakingCount harshAccelerationCount crashDetected crashLatitude
      crashLongitude harshEvents _ _ _ =>
      Some (endTrip_payload endLatitude endLongitude endTime averageSpeedKmh
              totalDistanceKm harshBrakingCount harshAccelerationCount
              crashDetected crashLatitude crashLongitude harshEvents)
  | _ => None
  end.

End Api.

(* ================================================================== *)
(** ** Further observations on the trip session *)
(* ================================================================== *)

Module EngineObs.
Import Engine.

Definition kind_eqb (a b : HarshKind) : bool :=
  match a, b with
  | braking, braking | acceleration, acceleration => true
  | _, _ => false
  end.

(** How many events of a kind a list holds. *)
Definition countKind (k : HarshKind) (events : list HarshEvent) : Z :=
  Z.of_nat (length (filter (fun e => kind_eqb (ev_type e) k) events)).

(** The sum of the buffered speeds, added in buffer order. *)
Definition sumSpeeds (buffer : list BufferPoint) : Q :=
  fold_left (fun a p => (a + pt_speed p)%Q) buffer 0%Q.

(** The two counters count the listed events. *)
Definition harshCounted (h : Harsh) : Prop :=
  harshBrakeCountRef h = countKind braking (harshEventsRef h) /\
  harshAccelCountRef h = countKind acceleration (harshEventsRef h).

(** While a trip id is held, the counters agree with the list. *)
Definition countsAgree (s : App) : Prop :=
  tripIdRef s <> None -> harshCounted (harsh s).

(** While a trip id is held, the speed count and sum are those of the
    buffer. *)
Definition bufferAgrees (s : App) : Prop :=
  tripIdRef s <> None ->
  speedCountRef (motion s) = Z.of_nat (length (tripLocationBuffer (motion s))) /\
  speedSumRef (motion s) = sumSpeeds (tripLocationBuffer (motion s)).

(** The crash place is set exactly when the crash flag is. *)
Definition crashPlaced (c : Crash) : Prop :=
  (crashDetectedRef c = true <-> crashLatRef c <> None) /\
  (crashDetectedRef c = true <-> crashLngRef c <> None).

(** Events other than an end request, with a resolver answer for a fix
    whose time is not 0. *)
Definition steadyEvent (e : Event) : bool :=
  match e with
  | EndPressed _ => false
  | LimitResolved time _ _ => negb (time =? 0)%Z
  | _ => true
  end.

(** A position whose two coordinates are numbers. *)
Definition numericFix (p : Position) : bool :=
  match coords p with
  | Some c => isSome (latitude c) && isSome (longitude c)
  | None => false
  end.

(** The speed-limit state with the consistency of its episode fields and
    a start time that is not the falsy 0. *)
Definition speedingSteady (sp : Speeding) : Prop :=
  speedingConsistent sp /\ speedingStartTimeRef sp <> Some 0%Z.

End EngineObs.

(* ================================================================== *)
(** ** Concrete inputs used to run the model *)
(* ================================================================== *)

Module Samples.
Import SpeedLimit Cache Engine.

(** An Overpass answer with one way and the given tags. *)
Definition oneRoad (highway maxspeed : option string) : AxiosResult :=
  Resolved (Some {| elements :=
    Some [ {| tags := Some {| highway := highway;
                              maxspeed := option_map TagString maxspeed |} |} ] |}).

Definition residential30mph : AxiosResult :=
  oneRoad (Some "residential"%string) (Some "30 mph"%string).

Definition residential120 : AxiosResult :=
  oneRoad (Some "residential"%string) (Some "120"%string).

(** A call for the grid cell [i] thousandths north of the equator. *)
Definition cellCall (response : AxiosResult) (now : Z) (i : Z) : CallArgs :=
  {| arg_latitude := inject_Z i / 1000; arg_longitude := 0;
     arg_nowLookup := now; arg_response := response; arg_nowInsert := now |}.

(** [n] calls for the cells [first], [first + 1], ... *)
Fixpoint cellCalls (response : AxiosResult) (now : Z) (first : Z) (n : nat)
  : list CallArgs :=
  match n with
  | O => []
  | S n' => cellCall response now first :: cellCalls response now (first + 1) n'
  end.

(** Computable stand-ins for the two functions the engine is
    parameterised by, used only to run it on concrete inputs: degrees
    turned into kilometres along the two axes (111.195 km per degree), and
    the integer square root. No theorem depends on them. *)
Definition flatDistanceKm (lat1 lng1 lat2 lng2 : Q) : Q :=
  (111.195 * (Qabs (lat2 - lat1) + Qabs (lng2 - lng1)))%Q.

Definition floorSqrt (x : Q) : Q := inject_Z (Z.sqrt (Qfloor x)).

Definition runApp : App -> list Event -> App := Engine.run flatDistanceKm floorSqrt true.

(** A fix with accuracy 10 m at the given place and time, with or
    without a device speed in m/s. *)
Definition gpsFix (latitude longitude : Q) (time : Z) (speedMs : option Q) : Event :=
  LocationUpdate
    {| coords := Some {| latitude := Some latitude; longitude := Some longitude;
                         accuracy := Some 10%Q; speed := speedMs |};
       timestamp := Some time |} time.

Definition t0 : Z := 1700000000000.

Definition limit60 : SpeedLimitInfo := mkInfo 60 Legal None (Some "tertiary"%string) 60.

(** A first fix, then a trip is started and created with id 7. *)
Definition tripStarted : list Event :=
  [ gpsFix 33.8938 35.5018 t0 None; StartPressed; TripCreated (Return (Some 7)) ].

(** ... then the vehicle is seen at 30 m/s (108 km/h) ten seconds later,
    which asks for the speed limit, and the resolver answers 60. *)
Definition speedingTrip : list Event :=
  tripStarted ++
  [ gpsFix 33.8945 35.5025 (t0 + 10000) (Some 30%Q);
    LimitResolved (t0 + 10000) (30 * 3.6)%Q (Return limit60) ].

(** ... then the driver ends the trip 20 s later, mid-episode. *)
Definition speedingTripEnded : list Event :=
  speedingTrip ++ [ EndPressed (t0 + 30000) ].

(** A trip with a sudden stop from 72 km/h within one second while the
    accelerometer reads 40 m/s^2, and a second identical stop later. *)
Definition crashEvents : list Event :=
  [ gpsFix 33.8945 35.5025 (t0 + 10000) (Some 20%Q);
    AccelerometerSample 40 0 0;
    gpsFix 33.8946 35.5026 (t0 + 11000) (Some 0%Q);
    CrashTimeoutFired;
    gpsFix 33.8952 35.5032 (t0 + 20000) (Some 20%Q);
    AccelerometerSample 0 41 0;
    gpsFix 33.8953 35.5033 (t0 + 21000) (Some 0%Q) ].

Definition crashTrip : list Event := tripStarted ++ crashEvents.

(** The states those runs end in. *)
Definition tripStartedState : App := runApp initialApp tripStarted.
Definition midTrip : App := runApp initialApp speedingTrip.
Definition midTripEnded : App := runApp initialApp speedingTripEnded.

(** The reference point of [tripStartedState], and what a fix two
    seconds later may carry: no device speed 100 m further on, a device
    speed of zero at that place, no device speed at the reference point. *)
Definition refPoint : LastLocation := mkLoc 33.8938 35.5018 t0.

Definition coordsMoved : Coords :=
  mkCoords (Some 33.8945%Q) (Some 35.5025%Q) (Some 10%Q) None.

Definition coordsMovedSpeedZero : Coords :=
  mkCoords (Some 33.8945%Q) (Some 35.5025%Q) (Some 10%Q) (Some 0%Q).

Definition coordsSamePlace : Coords :=
  mkCoords (Some 33.8938%Q) (Some 35.5018%Q) (Some 10%Q) None.

(** A harsh state whose last counted braking was at [t0 + 11000]. *)
Definition brakedAt11s : Harsh := harsh (runApp initialApp (firstn 6 crashTrip)).

End Samples.

Module MoreSamples.
Import SpeedLimit Engine Samples.

(** The request that an end of trip 30 s after [t0] sends from the state
    [crashTrip] ends in. *)
Definition crashTripRequest : Command :=
  hd (CreateTrip 0 0)
     (snd (Engine.step flatDistanceKm floorSqrt true
             (Engine.run flatDistanceKm floorSqrt true initialApp crashTrip)
             (EndPressed (t0 + 30000)))).

End MoreSamples.

(* ================================================================== *)
(** * Properties *)
(* ================================================================== *)

Module JsFacts.

Lemma Qlt_bool_iff (x y : Q) : Qlt_bool x y = true <-> (x < y)%Q.
Proof.
  unfold Qlt_bool. rewrite negb_true_iff. split; intro H.
  - apply Qnot_le_lt. intro Hle. apply Qle_bool_iff in Hle. congruence.
  - destruct (Qle_bool y x) eqn:E; [|reflexivity].
    apply Qle_bool_iff in E. exfalso. now apply (Qlt_not_le x y).
Qed.

Lemma Qlt_bool_false_iff (x y : Q) : Qlt_bool x y = false <-> (y <= x)%Q.
Proof.
  unfold Qlt_bool. rewrite negb_false_iff. apply Qle_bool_iff.
Qed.

Lemma Qle_bool_false_iff (x y : Q) : Qle_bool x y = false <-> (y < x)%Q.
Proof.
  rewrite <- Qlt_bool_iff. unfold Qlt_bool.
  destruct (Qle_bool x y); simpl; intuition congruence.
Qed.

End JsFacts.

(* ------------------------------------------------------------------ *)
(** ** The resolver *)
(* ------------------------------------------------------------------ *)

Module SpeedLimitSpec.
Import SpeedLimit.



Lemma getSpeedLimit_inv (response : AxiosResult) (info : SpeedLimitInfo) :
  getSpeedLimit response = Return info ->
  getSpeedLimit_try response = Return info \/ info = defaultInfo DefaultError.
Proof.
  unfold getSpeedLimit, try_catch.
  destruct (getSpeedLimit_try response); intros [= <-]; auto.
Qed.



Lemma getSpeedLimit_total (response : AxiosResult) :
  exists info, getSpeedLimit response = Return info.
Proof.
  unfold getSpeedLimit, try_catch.
  destruct (getSpeedLimit_try response) as [info | m]; eauto.
Qed.

(** The cached front settles with a value as well. *)
Lemma getSpeedLimitCached_total (cache : Cache.SpeedLimitCache) (latitude longitude : Q)
    (nowLookup : Z) (response : AxiosResult) (nowInsert : Z) :
  exists info,
    Cache.result (Cache.getSpeedLimitCached cache latitude longitude nowLookup
                    response nowInsert) = Return info.
Proof.
  unfold Cache.getSpeedLimitCached.
  destruct (getSpeedLimit_total response) as [d ->].
  destruct (Cache.Map_get _ cache) as [cached |]; [| now exists d].
  destruct (_ <? _); [now exists (Cache.data cached) | now exists d].
Qed.

(** C5. The resolver settles with a value for every outcome of the
    external request (a road, no road, a rejected or timed-out request,
    a malformed answer) and never raises; when the request fails the
    value is the global default of 60 km/h with source [DefaultError];
    and the cached front, which the trip session calls, settles with a
    value too. *)
Theorem getSpeedLimit_never_raises :
  (forall response, exists info, getSpeedLimit response = Return info) /\
  (forall message,
     getSpeedLimit (Rejected message) = Return (mkInfo 60 DefaultError None None 60)) /\
  (forall cache latitude longitude nowLookup response nowInsert,
     exists info,
       Cache.result (Cache.getSpeedLimitCached cache latitude longitude nowLookup
                       response nowInsert) = Return info).
Proof.
  split; [exact getSpeedLimit_total |].
  split; [reflexivity | exact getSpeedLimitCached_total].
Qed.

End SpeedLimitSpec.

(* ------------------------------------------------------------------ *)
(** ** The cache *)
(* ------------------------------------------------------------------ *)

Module CacheSpec.
Import SpeedLimit Cache.

Lemma key_eqb_eq (a b : CacheKey) : key_eqb a b = true <-> a = b.
Proof.
  destruct a as [a1 a2], b as [b1 b2]. unfold key_eqb; simpl.
  rewrite andb_true_iff, !Z.eqb_eq. split.
  - now intros [-> ->].
  - now intros [= -> ->].
Qed.

Lemma key_eqb_refl (a : CacheKey) : key_eqb a a = true.
Proof. now apply key_eqb_eq. Qed.

Lemma key_eqb_neq (a b : CacheKey) : key_eqb a b = false <-> a <> b.
Proof.
  rewrite <- key_eqb_eq. destruct (key_eqb a b); intuition congruence.
Qed.

Section MapLaws.

Variables (k : CacheKey) (e : Entry).

Lemma Map_get_None_notin (m : SpeedLimitCache) :
  Map_get k m = None <-> ~ In k (keys m).
Proof.
  induction m as [| [k' e'] m IH]; simpl.
  - tauto.
  - destruct (key_eqb k k') eqn:E.
    + apply key_eqb_eq in E. subst. split; [discriminate | tauto].
    + apply key_eqb_neq in E. rewrite IH. intuition congruence.
Qed.

Lemma Map_get_set_same (m : SpeedLimitCache) : Map_get k (Map_set k e m) = Some e.
Proof.
  induction m as [| [k' e'] m IH]; simpl.
  - now rewrite key_eqb_refl.
  - destruct (key_eqb k k') eqn:E; simpl; now rewrite E.
Qed.

(** [set] on an absent key appends. *)
Lemma Map_set_absent (m : SpeedLimitCache) :
  Map_get k m = None -> Map_set k e m = m ++ [(k, e)].
Proof.
  induction m as [| [k' e'] m IH]; simpl; [reflexivity |].
  destruct (key_eqb k k'); [discriminate |].
  intros H. now rewrite IH.
Qed.

(** [set] on a present key keeps every key where it stands. *)
Lemma Map_set_present (m : SpeedLimitCache) (old : Entry) :
  Map_get k m = Some old -> keys (Map_set k e m) = keys m.
Proof.
  induction m as [| [k' e'] m IH]; simpl; [discriminate |].
  destruct (key_eqb k k'); simpl; [reflexivity |].
  intros H. now rewrite IH.
Qed.

Lemma Map_get_delete_other (k0 : CacheKey) (m : SpeedLimitCache) :
  k <> k0 -> Map_get k (Map_delete k0 m) = Map_get k m.
Proof.
  intros Hne. induction m as [| [k' e'] m IH]; simpl; [reflexivity |].
  destruct (key_eqb k0 k') eqn:E0; simpl.
  - apply key_eqb_eq in E0. subst k'.
    apply key_eqb_neq in Hne. now rewrite Hne.
  - now rewrite IH.
Qed.

End MapLaws.

Lemma Map_delete_notin (k0 : CacheKey) (m : SpeedLimitCache) :
  ~ In k0 (keys m) -> Map_delete k0 m = m.
Proof.
  unfold Map_delete.
  induction m as [| [k' e'] m IH]; simpl; [reflexivity |].
  intros H. destruct (key_eqb k0 k') eqn:E; simpl.
  - apply key_eqb_eq in E. subst. tauto.
  - f_equal. apply IH. tauto.
Qed.

(** Deleting the first key of a map without repeated keys removes the
    first entry and nothing else. *)
Lemma Map_delete_first (k0 : CacheKey) (e0 : Entry) (m : SpeedLimitCache) :
  NoDup (keys ((k0, e0) :: m)) -> Map_delete k0 ((k0, e0) :: m) = m.
Proof.
  simpl. intros H. inversion H; subst.
  unfold Map_delete; simpl. rewrite key_eqb_refl; simpl.
  now apply Map_delete_notin.
Qed.

Lemma keys_app (m1 m2 : SpeedLimitCache) : keys (m1 ++ m2) = keys m1 ++ keys m2.
Proof. apply map_app. Qed.

Lemma NoDup_snoc (A : Type) (l : list A) (a : A) :
  NoDup l -> ~ In a l -> NoDup (l ++ [a]).
Proof.
  intros Hl Ha. induction Hl as [| x l Hx Hl IH]; simpl.
  - constructor; [tauto | constructor].
  - constructor.
    + rewrite in_app_iff. simpl. intros [H | [H | []]]; [tauto |].
      subst. apply Ha. now left.
    + apply IH. intros H. apply Ha. now right.
Qed.

Lemma Map_set_NoDup (k : CacheKey) (e : Entry) (m : SpeedLimitCache) :
  NoDup (keys m) -> NoDup (keys (Map_set k e m)).
Proof.
  intros H. destruct (Map_get k m) as [old |] eqn:G.
  - now rewrite (Map_set_present k e m old G).
  - rewrite (Map_set_absent k e m G), keys_app. simpl.
    apply NoDup_snoc; [assumption |]. now apply Map_get_None_notin.
Qed.

Lemma Map_set_size (k : CacheKey) (e : Entry) (m : SpeedLimitCache) :
  Map_size (Map_set k e m) =
    match Map_get k m with
    | Some _ => Map_size m
    | None => S (Map_size m)
    end.
Proof.
  unfold Map_size. destruct (Map_get k m) as [old |] eqn:G.
  - pose proof (f_equal (@length _) (Map_set_present k e m old G)) as H.
    unfold keys in H. now rewrite !length_map in H.
  - rewrite (Map_set_absent k e m G), length_app. simpl. lia.
Qed.

(** What [evictOldest] does to a map without repeated keys. *)
Lemma evictOldest_spec (m : SpeedLimitCache) :
  NoDup (keys m) ->
  (Map_size m <= CACHE_MAX_ENTRIES /\ evictOldest m = m)%nat \/
  (CACHE_MAX_ENTRIES < Map_size m /\ exists oldest, m = oldest :: evictOldest m)%nat.
Proof.
  intros Hnd. unfold evictOldest.
  destruct (Nat.ltb_spec CACHE_MAX_ENTRIES (Map_size m)) as [Hgt | Hle].
  - right. split; [assumption |].
    destruct m as [| [k0 e0] rest]; [simpl in Hgt; inversion Hgt |].
    exists (k0, e0). cbn [Map_firstKey]. now rewrite Map_delete_first.
  - left. tauto.
Qed.

(** The two ways one call can leave the cache. *)
Lemma call_cache_after (cache : SpeedLimitCache) (a : CallArgs) :
  cache_after (call cache a) = cache \/
  exists d,
    getSpeedLimit (arg_response a) = Return d /\
    queries (call cache a) = [(arg_latitude a, arg_longitude a)] /\
    cache_after (call cache a) =
      evictOldest (Map_set (cacheKey (arg_latitude a) (arg_longitude a))
                     {| data := d; timestamp := arg_nowInsert a |} cache).
Proof.
  unfold call, getSpeedLimitCached.
  destruct (Map_get _ cache) as [cached |].
  - destruct (_ <? _); [now left |].
    destruct (getSpeedLimit (arg_response a)) as [d | m]; [right; eauto | now left].
  - destruct (getSpeedLimit (arg_response a)) as [d | m]; [right; eauto | now left].
Qed.

Lemma evictOldest_wellFormed (k : CacheKey) (e : Entry) (m : SpeedLimitCache) :
  wellFormed m -> wellFormed (evictOldest (Map_set k e m)).
Proof.
  intros [Hnd Hsz].
  pose proof (Map_set_NoDup k e m Hnd) as Hnd'.
  pose proof (Map_set_size k e m) as Hs.
  destruct (evictOldest_spec _ Hnd') as [[Hle ->] | [Hgt [oldest Heq]]].
  - now split.
  - split.
    + rewrite Heq in Hnd'. simpl in Hnd'. now inversion Hnd'.
    + assert (Map_size (Map_set k e m) = S (Map_size (evictOldest (Map_set k e m))))
        as Hlen by (rewrite Heq at 1; reflexivity).
      destruct (Map_get k m); lia.
Qed.

Lemma call_wellFormed (cache : SpeedLimitCache) (a : CallArgs) :
  wellFormed cache -> wellFormed (cache_after (call cache a)).
Proof.
  intros H. destruct (call_cache_after cache a) as [-> | [d [_ [_ ->]]]];
    [assumption | now apply evictOldest_wellFormed].
Qed.

Lemma run_from_wellFormed (calls : list CallArgs) (cache : SpeedLimitCache) :
  wellFormed cache ->
  wellFormed (fold_left (fun c a => cache_after (call c a)) calls cache).
Proof.
  revert cache. induction calls as [| a calls IH]; intros cache H; simpl.
  - assumption.
  - apply IH. now apply call_wellFormed.
Qed.

Lemma run_wellFormed (calls : list CallArgs) : wellFormed (run calls).
Proof.
  apply run_from_wellFormed. split; [constructor | unfold Map_size; simpl; lia].
Qed.

Lemma run_snoc (calls : list CallArgs) (a : CallArgs) :
  run (calls ++ [a]) = cache_after (call (run calls) a).
Proof. unfold run. now rewrite fold_left_app. Qed.

(** A call that went to the network and got [d] left [d] stored, then
    evicted. *)
Lemma call_miss_cache_after (cache : SpeedLimitCache) (a : CallArgs) (d : SpeedLimitInfo) :
  queries (call cache a) = [(arg_latitude a, arg_longitude a)] ->
  getSpeedLimit (arg_response a) = Return d ->
  result (call cache a) = Return d /\
  cache_after (call cache a) =
    evictOldest (Map_set (cacheKey (arg_latitude a) (arg_longitude a))
                   {| data := d; timestamp := arg_nowInsert a |} cache).
Proof.
  unfold call, getSpeedLimitCached. intros Hq Hd. rewrite Hd in *.
  destruct (Map_get _ cache) as [cached |]; [| now split].
  destruct (_ <? _); [discriminate | now split].
Qed.

(** The entry just stored survives the eviction that follows it. *)
Lemma Map_get_evict_stored (k : CacheKey) (e : Entry) (m : SpeedLimitCache) :
  (Map_size m <= CACHE_MAX_ENTRIES)%nat ->
  Map_get k (evictOldest (Map_set k e m)) = Some e.
Proof.
  intros Hsz. unfold evictOldest.
  destruct (Nat.ltb_spec CACHE_MAX_ENTRIES (Map_size (Map_set k e m))) as [Hgt | Hle];
    [| apply Map_get_set_same].
  rewrite Map_set_size in Hgt.
  destruct (Map_get k m) as [old |] eqn:G; [lia |].
  destruct m as [| [k0 e0] m'];
    [unfold CACHE_MAX_ENTRIES, Map_size in Hgt; simpl in Hgt; lia |].
  rewrite (Map_set_absent _ _ _ G). cbn [app Map_firstKey].
  change ((k0, e0) :: m' ++ [(k, e)]) with (((k0, e0) :: m') ++ [(k, e)]).
  rewrite <- (Map_set_absent _ _ _ G), Map_get_delete_other.
  - apply Map_get_set_same.
  - intros ->. apply Map_get_None_notin in G. apply G. now left.
Qed.

(** A lookup that finds an entry younger than the cache duration. *)
Lemma cached_fresh (cache : SpeedLimitCache) (latitude longitude : Q) (now : Z)
    (response : AxiosResult) (nowInsert : Z) (cached : Entry) :
  Map_get (cacheKey latitude longitude) cache = Some cached ->
  now - timestamp cached < CACHE_DURATION_MS ->
  getSpeedLimitCached cache latitude longitude now response nowInsert =
    {| result := Return (data cached); cache_after := cache; queries := [] |}.
Proof.
  intros Hget Hlt. unfold getSpeedLimitCached. rewrite Hget.
  destruct (Z.ltb_spec (now - timestamp cached) CACHE_DURATION_MS); [reflexivity | lia].
Qed.

(** A lookup that finds an entry as old as the cache duration or older. *)
Lemma cached_stale (cache : SpeedLimitCache) (latitude longitude : Q) (now : Z)
    (response : AxiosResult) (nowInsert : Z) (cached : Entry) :
  Map_get (cacheKey latitude longitude) cache = Some cached ->
  CACHE_DURATION_MS <= now - timestamp cached ->
  queries (getSpeedLimitCached cache latitude longitude now response nowInsert)
    = [(latitude, longitude)].
Proof.
  intros Hget Hge. unfold getSpeedLimitCached. rewrite Hget.
  destruct (Z.ltb_spec (now - timestamp cached) CACHE_DURATION_MS); [lia |].
  destruct (getSpeedLimit response); reflexivity.
Qed.

(** C6. Two calls whose coordinates fall in the same grid cell, the
    first of which queried the resolver and stored its answer at
    [tInsert]; other calls may run in between, as long as they leave that
    entry in place. If the second call looks the entry up less than
    120000 ms after [tInsert], it sends no query, returns the stored value
    and leaves the cache as it is; if it looks it up 120000 ms or more
    after [tInsert], it sends a query of its own. *)
Theorem cached_second_call_within_ttl
    (cache : SpeedLimitCache)
    (lat1 lng1 : Q) (t1 : Z) (response1 : AxiosResult) (tInsert : Z)
    (between : list CallArgs)
    (lat2 lng2 : Q) (t2 : Z) (response2 : AxiosResult) (tInsert2 : Z) :
  let first := getSpeedLimitCached cache lat1 lng1 t1 response1 tInsert in
  let cache2 := fold_left (fun c a => cache_after (call c a)) between (cache_after first) in
  let second := getSpeedLimitCached cache2 lat2 lng2 t2 response2 tInsert2 in
  (Map_size cache <= CACHE_MAX_ENTRIES)%nat ->
  cacheKey lat1 lng1 = cacheKey lat2 lng2 ->
  queries first = [(lat1, lng1)] ->
  Map_get (cacheKey lat2 lng2) cache2 = Map_get (cacheKey lat2 lng2) (cache_after first) ->
  (t2 - tInsert < CACHE_DURATION_MS ->
     queries second = [] /\ result second = result first /\
     cache_after second = cache2) /\
  (CACHE_DURATION_MS <= t2 - tInsert -> queries second = [(lat2, lng2)]).
Proof.
  intros first cache2 second Hsz Hkey Hq Hkept.
  destruct (SpeedLimitSpec.getSpeedLimit_total response1) as [d Hd].
  destruct (call_miss_cache_after cache (mkArgs lat1 lng1 t1 response1 tInsert) d Hq Hd)
    as [Hres Hcache].
  unfold call in Hres, Hcache; cbn [arg_latitude arg_longitude arg_nowLookup
    arg_response arg_nowInsert] in Hres, Hcache.
  fold first in Hres, Hcache.
  assert (Map_get (cacheKey lat2 lng2) cache2
          = Some {| data := d; timestamp := tInsert |}) as Hget.
  { rewrite Hkept, Hcache, <- Hkey. now apply Map_get_evict_stored. }
  split; intros H; subst second.
  - rewrite (cached_fresh _ _ _ _ _ _ _ Hget) by exact H.
    cbn [queries result cache_after data]. now rewrite Hres.
  - now apply (cached_stale _ _ _ _ _ _ _ Hget).
Qed.

(** C7. Along every sequence of calls from the empty cache the cache
    holds at most 100 entries; and whenever a call stores an answer that
    makes the count exceed 100, the cache it leaves is the stored map
    without its first entry, the oldest in insertion order, and holds
    exactly 100 entries. *)
Theorem cache_never_exceeds_cap (calls : list CallArgs) :
  (Map_size (run calls) <= CACHE_MAX_ENTRIES)%nat /\
  forall (a : CallArgs) (d : SpeedLimitInfo),
    let stored := Map_set (cacheKey (arg_latitude a) (arg_longitude a))
                    {| data := d; timestamp := arg_nowInsert a |} (run calls) in
    queries (call (run calls) a) = [(arg_latitude a, arg_longitude a)] ->
    getSpeedLimit (arg_response a) = Return d ->
    (CACHE_MAX_ENTRIES < Map_size stored)%nat ->
    exists oldest,
      stored = oldest :: run (calls ++ [a]) /\
      Map_size (run (calls ++ [a])) = CACHE_MAX_ENTRIES.
Proof.
  destruct (run_wellFormed calls) as [Hnd Hsz].
  split; [exact Hsz |].
  intros a d stored Hq Hd Hgt.
  rewrite run_snoc.
  destruct (call_miss_cache_after _ a d Hq Hd) as [_ ->]. fold stored.
  assert (NoDup (keys stored)) as Hnd' by now apply Map_set_NoDup.
  destruct (evictOldest_spec stored Hnd') as [[Hle _] | [_ [oldest Heq]]]; [lia |].
  exists oldest. split; [exact Heq |].
  assert (Map_size stored = S (Map_size (evictOldest stored))) as Hlen
    by (rewrite Heq at 1; reflexivity).
  pose proof (Map_set_size (cacheKey (arg_latitude a) (arg_longitude a))
                {| data := d; timestamp := arg_nowInsert a |} (run calls)) as Hs.
  fold stored in Hs. destruct (Map_get _ (run calls)); lia.
Qed.

Lemma cached_second_call_within_ttl_witness :
  cacheKey 33.8938 35.5018 = cacheKey 33.89384 35.50181 /\
  queries
    (getSpeedLimitCached
       (fold_left (fun c a => cache_after (call c a))
          [Samples.cellCall Samples.residential120 30000 5]
          (cache_after (getSpeedLimitCached [] 33.8938 35.5018 1000
                          Samples.residential30mph 1200)))
       33.89384 35.50181 60000 (Rejected "offline") 60100) = [].
Proof.
  split; [reflexivity |].
  apply (cached_second_call_within_ttl [] 33.8938 35.5018 1000
           Samples.residential30mph 1200
           [Samples.cellCall Samples.residential120 30000 5]
           33.89384 35.50181 60000 (Rejected "offline") 60100).
  - unfold Map_size, CACHE_MAX_ENTRIES; simpl; lia.
  - reflexivity.
  - reflexivity.
  - reflexivity.
  - now vm_compute.
Defined.

Lemma cache_never_exceeds_cap_witness :
  (Map_size (run (Samples.cellCalls Samples.residential120 5 0 100)) <= 100)%nat /\
  Map_size (run (Samples.cellCalls Samples.residential120 5 0 100
                 ++ [Samples.cellCall Samples.residential120 5 100])) = 100%nat.
Proof.
  destruct (cache_never_exceeds_cap (Samples.cellCalls Samples.residential120 5 0 100))
    as [Hsize Hevict].
  split; [exact Hsize |].
  destruct (Hevict (Samples.cellCall Samples.residential120 5 100)
              (mkInfo 50 LegalValidated (Some 120) (Some "residential"%string) 50))
    as (oldest & _ & Hlen).
  - reflexivity.
  - reflexivity.
  - vm_compute. lia.
  - exact Hlen.
Defined.

End CacheSpec.

(* ------------------------------------------------------------------ *)
(** ** The trip session *)
(* ------------------------------------------------------------------ *)

Module EngineSpec.
Import SpeedLimit Engine JsFacts.

Section Session.

Variable distanceKm : Q -> Q -> Q -> Q -> Q.
Variable Math_sqrt : Q -> Q.
Variable android : bool.

Let onFix := Engine.onFix distanceKm.
Let onPosition := Engine.onPosition distanceKm.
Let step := Engine.step distanceKm Math_sqrt android.
Let run := Engine.run distanceKm Math_sqrt android.

(** *** What one fix does to each component *)

Lemma handleStartTrip_call_frame (seen : bool) (s : App) :
  let s' := fst (handleStartTrip_call seen s) in
  tripIdRef s' = tripIdRef s /\ motion s' = motion s /\ harsh s' = harsh s /\
  crash s' = crash s /\ speeding s' = speeding s.
Proof.
  unfold handleStartTrip_call. destruct seen; [now cbn |].
  cbn. destruct (lastLocationRef (motion s)); now cbn.
Qed.

(** An idle fix writes the motion cells and the display only. *)
Lemma onFix_idle (s : App) (c : Coords) (latitude longitude : Q) (time : Z) :
  tripIdRef s = None ->
  let s' := fst (onFix s c latitude longitude time) in
  tripIdRef s' = None /\ harsh s' = harsh s /\ crash s' = crash s /\
  speeding s' = speeding s /\
  tripLocationBuffer (motion s') = tripLocationBuffer (motion s) /\
  speedSumRef (motion s') = speedSumRef (motion s) /\
  speedCountRef (motion s') = speedCountRef (motion s).
Proof.
  intros Hid. unfold onFix, Engine.onFix. rewrite Hid. cbn [isSome negb andb].
  destruct (if negb (autoStartInProgressRef (motion s)) then _ else _)
    as [recent fire].
  destruct fire.
  - match goal with
    | |- context [handleStartTrip_call false ?s1] =>
        destruct (handleStartTrip_call_frame false s1) as (H1 & H2 & H3 & H4 & H5)
    end.
    cbn zeta. rewrite H1, H2, H3, H4, H5. now cbn.
  - now cbn.
Qed.

(** An active fix, component by component. *)
Lemma onFix_active (s : App) (c : Coords) (latitude longitude : Q) (time : Z) (id : Z) :
  tripIdRef s = Some id ->
  let m := motion s in
  let prev := lastLocationRef m in
  let rawSpeed := rawSpeedOf distanceKm prev c latitude longitude time in
  let speedCount := (speedCountRef m + 1)%Z in
  let prevSpeed := lastSpeed (tripLocationBuffer m) in
  let s' := fst (onFix s c latitude longitude time) in
  tripIdRef s' = Some id /\
  tripLocationBuffer (motion s') =
    tripLocationBuffer m ++ [ mkPoint latitude longitude time rawSpeed ] /\
  speedSumRef (motion s') = (speedSumRef m + rawSpeed)%Q /\
  speedCountRef (motion s') = speedCount /\
  harsh s' = detectHarsh (harsh s) prev speedCount (Engine.accuracy c)
               (accelerometerMagnitudeRef (crash s)) prevSpeed rawSpeed time
               latitude longitude /\
  crash s' = detectCrash (crash s)
               (speedCrashSignal prev speedCount prevSpeed rawSpeed time)
               latitude longitude /\
  speeding s' = (if speedCheckDue (speeding s) time
                 then markSpeedCheck (speeding s) time else speeding s) /\
  snd (onFix s c latitude longitude time) =
    (if speedCheckDue (speeding s) time
     then [ResolveLimit latitude longitude time rawSpeed] else []).
Proof.
  intros Hid. unfold onFix, Engine.onFix. rewrite Hid. cbn [isSome negb andb].
  cbn [fst snd tripIdRef motion harsh crash speeding ui set_ui set_motion set_harsh
       set_crash set_speeding tripLocationBuffer speedSumRef speedCountRef].
  repeat split; try reflexivity; try assumption.
  all: destruct (speedCheckDue (speeding s) time); reflexivity.
Qed.

Lemma onPosition_cases (s : App) (position : Position) (dateNow : Z) :
  onPosition s position dateNow = (s, []) \/
  exists c latitude longitude,
    onPosition s position dateNow =
      onFix s c latitude longitude (sampleTime (timestamp position) dateNow).
Proof.
  unfold onPosition, Engine.onPosition.
  destruct (coords position) as [c |]; [| now left].
  destruct (latitude c) as [la |]; [| now left].
  destruct (longitude c) as [lo |]; [| now left].
  right. now exists c, la, lo.
Qed.

(** *** Start and end against the session state *)






(** *** Speeding state *)

Lemma finalizeSpeeding_open_episode (sp : Speeding) (now start : Z) :
  wasSpeedingRef sp = true ->
  speedingStartTimeRef sp = Some start ->
  start <> 0%Z ->
  wasSpeedingRef (finalizeSpeeding sp now) = false /\
  speedingStartTimeRef (finalizeSpeeding sp now) = Some start /\
  speedingDurationRef (finalizeSpeeding sp now)
    = (speedingDurationRef sp + inject_Z (now - start) / 1000)%Q.
Proof.
  intros Hw Hs Hne. unfold finalizeSpeeding. rewrite Hs, Hw. cbn.
  destruct (Z.eqb_spec start 0); [contradiction |]. now cbn.
Qed.

(** The [then] callback keeps the two fields in step, as long as the
    recorded start is not the falsy time 0. *)
Lemma applySpeedLimit_consistent (sp : Speeding) (limit time : Z) (rawSpeed : Q) :
  speedingConsistent sp ->
  speedingStartTimeRef sp <> Some 0%Z ->
  speedingConsistent (applySpeedLimit sp limit time rawSpeed).
Proof.
  unfold speedingConsistent, applySpeedLimit. intros Hc Hz.
  destruct (Qlt_bool (inject_Z limit + 5) rawSpeed);
    destruct (wasSpeedingRef sp) eqn:Hw; cbn [andb negb];
    destruct (speedingStartTimeRef sp) as [start |] eqn:Hs;
    unfold truthy;
    try (destruct (Z.eqb_spec start 0); [congruence |]);
    cbn [negb];
    repeat match goal with
           | |- context [if Qlt_bool ?a ?b then _ else _] => destruct (Qlt_bool a b)
           end;
    cbn; rewrite ?Hs; intuition congruence.
Qed.

Lemma handleStartTrip_resume_consistent (s : App) (trip : Completion (option Z)) :
  speedingConsistent (speeding s) ->
  speedingConsistent (speeding (handleStartTrip_resume android s trip)).
Proof.
  unfold handleStartTrip_resume. destruct trip; cbn; [| tauto].
  intros _. unfold speedingConsistent; cbn. intuition congruence.
Qed.

(** *** Raw speed *)

Lemma timeHours_pos (timeDeltaMs : Z) :
  (1500 <= timeDeltaMs)%Z -> (0 < inject_Z timeDeltaMs / 1000 / 3600)%Q.
Proof.
  intros H. assert (0 < inject_Z timeDeltaMs)%Q as Hpos
    by (change 0%Q with (inject_Z 0); rewrite <- Zlt_Qlt; lia).
  apply Qlt_shift_div_l; [reflexivity |].
  apply Qlt_shift_div_l; [reflexivity |]. lra.
Qed.

(** A device speed that is missing or negative is not used. *)
Lemma coordsSpeedKmh_None (c : Coords) :
  coordsSpeedKmh c = None <->
  speed c = None \/ exists v, speed c = Some v /\ (v < 0)%Q.
Proof.
  unfold coordsSpeedKmh. destruct (speed c) as [v |]; [| intuition].
  destruct (Qle_bool 0 v) eqn:E.
  - apply Qle_bool_iff in E. split; [discriminate |].
    intros [H | (w & [= <-] & Hw)]; [discriminate | lra].
  - apply Qle_bool_false_iff in E. split; [| reflexivity].
    intros _. right. now exists v.
Qed.

(** C3, as amended. When the new sample carries no device speed, or a
    negative one, and against the last accepted reference point the
    elapsed time is at least 1500 ms and the displacement at least
    0.015 km, with a reported accuracy of at most 35 m, the raw speed is
    the distance divided by the elapsed time in hours. *)
Theorem raw_speed_from_displacement (c : Coords) (p : LastLocation)
    (latitude longitude a : Q) (time : Z) :
  coordsSpeedKmh c = None ->
  accuracy c = Some a ->
  (a <= 35)%Q ->
  (1500 <= time - Engine.time p)%Z ->
  (0.015 <= distanceKm (lat p) (lng p) latitude longitude)%Q ->
  rawSpeedOf distanceKm (Some p) c latitude longitude time =
    (distanceKm (lat p) (lng p) latitude longitude
     / (inject_Z (time - Engine.time p) / 1000 / 3600))%Q.
Proof.
  intros Hdev Hacc Ha Hdt Hdist.
  unfold rawSpeedOf, computeSpeed. rewrite Hdev, Hacc.
  destruct (Z.leb_spec 1500 (time - Engine.time p)); [| lia].
  apply timeHours_pos in Hdt. apply Qlt_bool_iff in Hdt. rewrite Hdt.
  apply Qle_bool_iff in Hdist. rewrite Hdist.
  apply Qle_bool_iff in Ha. rewrite Ha. reflexivity.
Qed.

(** The raw speed is zero when no device speed is used and the
    displacement branch is not taken. *)
Lemma rawSpeedOf_rejected (prev : option LastLocation) (c : Coords)
    (latitude longitude : Q) (time : Z) :
  coordsSpeedKmh c = None ->
  ~ (exists p,
       prev = Some p /\
       (1500 <= time - Engine.time p)%Z /\
       (0.015 <= distanceKm (lat p) (lng p) latitude longitude)%Q /\
       let a := match accuracy c with Some a => a | None => 999%Q end in
       (a <= 35 \/ 500 < a)%Q) ->
  rawSpeedOf distanceKm prev c latitude longitude time = 0%Q.
Proof.
  intros Hdev Hno. unfold rawSpeedOf, computeSpeed. rewrite Hdev.
  destruct prev as [p |]; [| reflexivity].
  destruct (Z.leb_spec 1500 (time - Engine.time p)) as [Hdt |]; [| reflexivity].
  destruct (Qlt_bool 0 _ && Qle_bool _ _ && (Qle_bool _ _ || Qlt_bool _ _)) eqn:E;
    [| reflexivity].
  exfalso. apply Hno. exists p.
  rewrite !andb_true_iff, orb_true_iff, !Qle_bool_iff, !Qlt_bool_iff in E.
  cbv zeta. tauto.
Qed.

(** C10. While a trip is Active, a sample without a usable device speed
    for which the displacement preconditions (elapsed time at least
    1500 ms, displacement at least 0.015 km, accuracy at most 35 m or
    above 500 m) do not all hold gets the raw speed 0, and that 0 is
    appended to the trip buffer, added to the running sum, and counted. *)
Theorem rejected_sample_counts_as_zero (s : App) (c : Coords)
    (latitude longitude : Q) (time id : Z) :
  tripIdRef s = Some id ->
  coordsSpeedKmh c = None ->
  ~ (exists p,
       lastLocationRef (motion s) = Some p /\
       (1500 <= time - Engine.time p)%Z /\
       (0.015 <= distanceKm (lat p) (lng p) latitude longitude)%Q /\
       let a := match accuracy c with Some a => a | None => 999%Q end in
       (a <= 35 \/ 500 < a)%Q) ->
  let s' := fst (onFix s c latitude longitude time) in
  rawSpeedOf distanceKm (lastLocationRef (motion s)) c latitude longitude time = 0%Q /\
  tripLocationBuffer (motion s') =
    tripLocationBuffer (motion s) ++ [ mkPoint latitude longitude time 0%Q ] /\
  speedSumRef (motion s') = (speedSumRef (motion s) + 0)%Q /\
  speedCountRef (motion s') = (speedCountRef (motion s) + 1)%Z.
Proof.
  intros Hid Hdev Hno s'.
  pose proof (rawSpeedOf_rejected _ c latitude longitude time Hdev Hno) as Hraw.
  destruct (onFix_active s c latitude longitude time id Hid)
    as (_ & Hbuf & Hsum & Hcnt & _).
  subst s'. rewrite Hbuf, Hsum, Hcnt, Hraw. repeat split.
Qed.

(** *** Crash flag *)

Lemma detectCrash_cases (c : Crash) (signal : bool) (latitude longitude : Q) :
  let c' := detectCrash c signal latitude longitude in
  crashDetectedRef c' = crashDetectedRef c \/
  (crashDetectedRef c = false /\ crashDetectedRef c' = true /\
   sensorBasedCrashRef c = true /\
   speedBasedCrashRef c' = false /\ sensorBasedCrashRef c' = false).
Proof.
  unfold detectCrash.
  destruct (if signal then true else speedBasedCrashRef c);
    destruct (sensorBasedCrashRef c); destruct (crashDetectedRef c);
    cbn; auto; right; auto.
Qed.

(** One step either leaves the trip-level flag alone, or lowers it
    because a new trip was created, or raises it and clears both
    signals. *)
Lemma step_crash_cases (s : App) (e : Event) :
  let s' := fst (step s e) in
  crashDetectedRef (crash s') = crashDetectedRef (crash s) \/
  (withinTrip e = false /\ crashDetectedRef (crash s') = false) \/
  (crashDetectedRef (crash s) = false /\ crashDetectedRef (crash s') = true /\
   speedBasedCrashRef (crash s') = false /\ sensorBasedCrashRef (crash s') = false).
Proof.
  destruct e as [position dateNow | x y z | | time rawSpeed limitData | | trip | now | ended];
    cbn [step Engine.step fst withinTrip].
  - fold (onPosition s position dateNow).
    destruct (onPosition_cases s position dateNow) as [-> | (c & la & lo & ->)];
      [now left |].
    destruct (tripIdRef s) as [id |] eqn:Hid.
    + destruct (onFix_active s c la lo (sampleTime (timestamp position) dateNow) id Hid)
        as (_ & _ & _ & _ & _ & Hcr & _).
      rewrite Hcr.
      match goal with
      | |- context [detectCrash ?c ?sig ?la ?lo] =>
          destruct (detectCrash_cases c sig la lo) as [H | (H1 & H2 & _ & H3 & H4)]
      end; [now left | right; right; auto].
    + destruct (onFix_idle s c la lo (sampleTime (timestamp position) dateNow) Hid)
        as (_ & _ & Hcr & _).
      rewrite Hcr. now left.
  - now left.
  - left. unfold onCrashTimeout. destruct (crashTimeout (crash s)); reflexivity.
  - left. destruct limitData; reflexivity.
  - left.
    destruct (handleStartTrip_call_frame (isStartingTrip (ui s)) s) as (_ & _ & _ & H & _).
    now rewrite H.
  - destruct trip; cbn; [right; left; now split | now left].
  - left. unfold handleEndTrip_call. destruct (tripIdRef s); [| reflexivity].
    cbn. destruct (lastLocationRef (motion s)); reflexivity.
  - left. destruct ended; reflexivity.
Qed.

Lemma crashTransitions_after_crash (events : list Event) (s : App) :
  forallb withinTrip events = true ->
  crashDetectedRef (crash s) = true ->
  crashTransitions distanceKm Math_sqrt android s events = O.
Proof.
  revert s. induction events as [| e events IH]; intros s Hw Hc; [reflexivity |].
  cbn [forallb] in Hw. apply andb_true_iff in Hw as [He Hw].
  cbn [crashTransitions]. rewrite Hc. cbn [negb andb Nat.add].
  apply IH; [assumption |].
  destruct (step_crash_cases s e) as [H | [[H _] | (H & _)]];
    unfold step in *; congruence.
Qed.

(** C8. Over any sequence of events of one trip (location fixes,
    accelerometer samples, timer, resolver answers, start and end
    requests, the end of the trip; no creation of a new trip), the
    crash-detected flag goes from false to true at most once; and in the
    step in which it does, both signal flags are false afterwards. *)
Theorem crash_recorded_at_most_once (s : App) (events : list Event) (e : Event) :
  forallb withinTrip events = true ->
  (crashTransitions distanceKm Math_sqrt android s events <= 1)%nat /\
  (crashDetectedRef (crash s) = false ->
   crashDetectedRef (crash (fst (step s e))) = true ->
   speedBasedCrashRef (crash (fst (step s e))) = false /\
   sensorBasedCrashRef (crash (fst (step s e))) = false).
Proof.
  intros Hw. split.
  - revert s Hw. induction events as [| ev events IH]; intros s Hw; [cbn; lia |].
    cbn [forallb] in Hw. apply andb_true_iff in Hw as [He Hw].
    cbn [crashTransitions].
    destruct (negb (crashDetectedRef (crash s))
              && crashDetectedRef (crash (fst (Engine.step distanceKm Math_sqrt android s ev))))
      eqn:E.
    + apply andb_true_iff in E as [_ E].
      rewrite (crashTransitions_after_crash events _ Hw E). lia.
    + cbn [Nat.add]. now apply IH.
  - intros H0 H1.
    destruct (step_crash_cases s e) as [H | [[_ H] | (_ & _ & H3 & H4)]];
      unfold step in *; [congruence | congruence | auto].
Qed.

(** *** Harsh events *)

Lemma ForallOrdPairs_snoc (A : Type) (R : A -> A -> Prop) (l : list A) (a : A) :
  ForallOrdPairs R l -> Forall (fun x => R x a) l -> ForallOrdPairs R (l ++ [a]).
Proof.
  induction 1 as [| x l Hx Hl IH]; intros Ha; cbn.
  - constructor; constructor.
  - inversion Ha; subst. constructor.
    + apply Forall_app. split; [assumption | constructor; [assumption | constructor]].
    + now apply IH.
Qed.

Lemma recordBrake_invariant (h : Harsh) (countBrake : bool) (now : Z)
    (latitude longitude rawSpeed : Q) :
  harshInvariant h -> harshInvariant (recordBrake h countBrake now latitude longitude rawSpeed).
Proof.
  intros [Hsp Hle]. unfold recordBrake.
  destruct (countBrake && (3000 <=? now - lastHarshBrakeTimeRef h)%Z) eqn:E;
    [| now split].
  apply andb_true_iff in E as [_ E]. apply Z.leb_le in E.
  split; cbn [harshEventsRef].
  - apply ForallOrdPairs_snoc; [assumption |].
    eapply Forall_impl; [| exact Hle]. cbn. intros x Hx Hk.
    rewrite Hk in Hx. cbn in Hx. lia.
  - apply Forall_app. split.
    + eapply Forall_impl; [| exact Hle]. cbn. intros x Hx.
      destruct (ev_type x); cbn in *; lia.
    + constructor; [cbn; lia | constructor].
Qed.

Lemma recordAccel_invariant (h : Harsh) (countAccel : bool) (now : Z)
    (latitude longitude rawSpeed : Q) :
  harshInvariant h -> harshInvariant (recordAccel h countAccel now latitude longitude rawSpeed).
Proof.
  intros [Hsp Hle]. unfold recordAccel.
  destruct (countAccel && (3000 <=? now - lastHarshAccelTimeRef h)%Z) eqn:E;
    [| now split].
  apply andb_true_iff in E as [_ E]. apply Z.leb_le in E.
  split; cbn [harshEventsRef].
  - apply ForallOrdPairs_snoc; [assumption |].
    eapply Forall_impl; [| exact Hle]. cbn. intros x Hx Hk.
    rewrite Hk in Hx. cbn in Hx. lia.
  - apply Forall_app. split.
    + eapply Forall_impl; [| exact Hle]. cbn. intros x Hx.
      destruct (ev_type x); cbn in *; lia.
    + constructor; [cbn; lia | constructor].
Qed.

Lemma detectHarsh_invariant (h : Harsh) (prev : option LastLocation) (speedCount : Z)
    (accuracy : option Q) (accelMagnitude prevSpeed rawSpeed : Q) (time : Z)
    (latitude longitude : Q) :
  harshInvariant h ->
  harshInvariant (detectHarsh h prev speedCount accuracy accelMagnitude prevSpeed
                    rawSpeed time latitude longitude).
Proof.
  intros H. unfold detectHarsh.
  destruct prev as [p |]; [| assumption].
  destruct (2 <=? speedCount)%Z; [| assumption].
  destruct (Qle_bool _ _ && Qle_bool _ _); [| assumption].
  destruct (harshCandidates _ _ _ _) as [countBrake countAccel].
  now apply recordAccel_invariant, recordBrake_invariant.
Qed.

Lemma step_harshInvariant (s : App) (e : Event) :
  harshInvariant (harsh s) -> harshInvariant (harsh (fst (step s e))).
Proof.
  intros H.
  destruct e as [position dateNow | x y z | | time rawSpeed limitData | | trip | now | ended];
    cbn [step Engine.step fst].
  - fold (onPosition s position dateNow).
    destruct (onPosition_cases s position dateNow) as [-> | (c & la & lo & ->)];
      [assumption |].
    destruct (tripIdRef s) as [id |] eqn:Hid.
    + destruct (onFix_active s c la lo (sampleTime (timestamp position) dateNow) id Hid)
        as (_ & _ & _ & _ & Hh & _).
      rewrite Hh. now apply detectHarsh_invariant.
    + destruct (onFix_idle s c la lo (sampleTime (timestamp position) dateNow) Hid)
        as (_ & Hh & _).
      now rewrite Hh.
  - assumption.
  - unfold onCrashTimeout. destruct (crashTimeout (crash s)); assumption.
  - destruct limitData; assumption.
  - destruct (handleStartTrip_call_frame (isStartingTrip (ui s)) s) as (_ & _ & Hh & _).
    now rewrite Hh.
  - destruct trip; cbn; [| assumption].
    split; cbn; constructor.
  - unfold handleEndTrip_call. destruct (tripIdRef s); [| assumption].
    cbn. destruct (lastLocationRef (motion s)); assumption.
  - destruct ended; cbn; [| assumption].
    split; cbn; constructor.
Qed.

Lemma run_harshInvariant (events : list Event) (s : App) :
  harshInvariant (harsh s) -> harshInvariant (harsh (run s events)).
Proof.
  revert s. induction events as [| e events IH]; intros s H; [assumption |].
  apply IH. now apply step_harshInvariant.
Qed.

(** C9. In every state the app can reach, any two recorded harsh events
    of the same kind are at least 3000 ms apart; and a sample whose
    candidates all fall less than 3000 ms after the last counted event of
    their kind leaves the counters and the event list as they are. *)
Theorem harsh_events_cooldown (events : list Event) :
  sameKindSpaced (harshEventsRef (harsh (run initialApp events))) /\
  forall (h : Harsh) (countBrake countAccel : bool) (now : Z)
         (latitude longitude rawSpeed : Q),
    (countBrake = true -> (now - lastHarshBrakeTimeRef h < 3000)%Z) ->
    (countAccel = true -> (now - lastHarshAccelTimeRef h < 3000)%Z) ->
    recordAccel (recordBrake h countBrake now latitude longitude rawSpeed)
                countAccel now latitude longitude rawSpeed = h.
Proof.
  split.
  - apply run_harshInvariant. split; cbn; constructor.
  - intros h cb ca now la lo v Hb Ha.
    assert (recordBrake h cb now la lo v = h) as ->.
    { unfold recordBrake. destruct cb; [| reflexivity].
      specialize (Hb eq_refl).
      destruct (Z.leb_spec 3000 (now - lastHarshBrakeTimeRef h)); [lia | reflexivity]. }
    unfold recordAccel. destruct ca; [| reflexivity].
    specialize (Ha eq_refl).
    destruct (Z.leb_spec 3000 (now - lastHarshAccelTimeRef h)); [lia | reflexivity].
Qed.

End Session.



(** C2, at the failing input: a trip in which a speeding episode opens
    at [t0 + 10000] and the driver ends the trip 20 s later. Before the
    end the two fields agree; the end handler adds the 20 s, clears the
    flag and leaves the episode start in place. *)
Theorem end_trip_leaves_episode_start :
  speedingConsistent (speeding Samples.midTrip) /\
  wasSpeedingRef (speeding Samples.midTripEnded) = false /\
  speedingStartTimeRef (speeding Samples.midTripEnded) = Some (Samples.t0 + 10000)%Z /\
  ~ speedingConsistent (speeding Samples.midTripEnded).
Proof.
  unfold speedingConsistent. repeat split; try (vm_compute; congruence).
  intros [H _]. vm_compute in H.
  assert (false = true) as Hft by (apply H; discriminate).
  discriminate Hft.
Qed.

(** C3, counterexample. The reference point is 100 m behind, two seconds
    have passed, the accuracy is 10 m, and the device reports a speed of
    0 m/s. The raw speed is the device speed, 0 km/h: whatever distance
    of at least 0.015 km the two places are given, the raw speed is not
    that distance over the elapsed time. *)
Lemma device_speed_overrides_displacement :
  ~ (exists distanceKm : Q -> Q -> Q -> Q -> Q,
       (0.015 <= distanceKm 33.8938 35.5018 33.8945 35.5025)%Q /\
       (rawSpeedOf distanceKm (Some Samples.refPoint) Samples.coordsMovedSpeedZero
          33.8945 35.5025 (Samples.t0 + 2000)
        == distanceKm 33.8938 35.5018 33.8945 35.5025
           / (inject_Z 2000 / 1000 / 3600))%Q).
Proof.
  intros (d & Hd & Heq).
  unfold rawSpeedOf, computeSpeed in Heq. cbn in Heq.
  assert (0 < d 33.8938 35.5018 33.8945 35.5025 / (inject_Z 2000 / 1000 / 3600))%Q as Hpos.
  { apply Qlt_shift_div_l; [reflexivity |]. lra. }
  rewrite <- Heq in Hpos. revert Hpos. apply Qle_not_lt. now vm_compute.
Qed.

Lemma raw_speed_from_displacement_witness :
  coordsSpeedKmh Samples.coordsMoved = None /\
  rawSpeedOf Samples.flatDistanceKm (Some Samples.refPoint) Samples.coordsMoved
    33.8945 35.5025 (Samples.t0 + 2000) =
  (Samples.flatDistanceKm 33.8938 35.5018 33.8945 35.5025
   / (inject_Z (Samples.t0 + 2000 - Samples.t0) / 1000 / 3600))%Q.
Proof.
  split; [reflexivity |].
  apply (raw_speed_from_displacement Samples.flatDistanceKm Samples.coordsMoved
           Samples.refPoint 33.8945 35.5025 10 (Samples.t0 + 2000)).
  - reflexivity.
  - reflexivity.
  - now vm_compute.
  - now vm_compute.
  - now vm_compute.
Defined.

Lemma crash_recorded_at_most_once_witness :
  forallb withinTrip Samples.crashEvents = true /\
  (crashTransitions Samples.flatDistanceKm Samples.floorSqrt true
     Samples.tripStartedState Samples.crashEvents <= 1)%nat.
Proof.
  split; [reflexivity |].
  apply (crash_recorded_at_most_once Samples.flatDistanceKm Samples.floorSqrt true
           Samples.tripStartedState Samples.crashEvents Engine.CrashTimeoutFired).
  reflexivity.
Defined.

Lemma harsh_events_cooldown_witness :
  (Samples.t0 + 12000 - lastHarshBrakeTimeRef Samples.brakedAt11s < 3000)%Z /\
  recordAccel
    (recordBrake Samples.brakedAt11s true (Samples.t0 + 12000) 33.8946 35.5026 0)
    false (Samples.t0 + 12000) 33.8946 35.5026 0 = Samples.brakedAt11s.
Proof.
  split; [now vm_compute |].
  apply (proj2 (harsh_events_cooldown Samples.flatDistanceKm Samples.floorSqrt true [])).
  - intros _. now vm_compute.
  - discriminate.
Defined.

Lemma rejected_sample_counts_as_zero_witness :
  tripIdRef Samples.tripStartedState = Some 7%Z /\
  speedCountRef
    (motion (fst (Engine.onFix Samples.flatDistanceKm Samples.tripStartedState
                    Samples.coordsSamePlace 33.8938 35.5018 (Samples.t0 + 2000))))
  = (speedCountRef (motion Samples.tripStartedState) + 1)%Z.
Proof.
  split; [reflexivity |].
  apply (rejected_sample_counts_as_zero Samples.flatDistanceKm Samples.tripStartedState
           Samples.coordsSamePlace 33.8938 35.5018 (Samples.t0 + 2000) 7).
  - reflexivity.
  - reflexivity.
  - intros (p & Hp & _ & Hd & _).
    vm_compute in Hp. injection Hp as <-.
    vm_compute in Hd. apply Hd. reflexivity.
Defined.

End EngineSpec.

(* ------------------------------------------------------------------ *)
(** ** More on the resolver *)
(* ------------------------------------------------------------------ *)

Module SpeedLimitExtra.
Import SpeedLimit.


(** The three shapes of a value [getSpeedLimit] settles with. *)
Lemma getSpeedLimit_shape (response : AxiosResult) (info : SpeedLimitInfo) :
  getSpeedLimit response = Return info ->
  info = defaultInfo Default \/ info = defaultInfo DefaultError \/
  exists t osm,
    parseMaxspeed (maxspeed t) = Return osm /\
    info = {| speedLimit := fst (validateOsm osm (legalLimitFor (highway t)));
              source := snd (validateOsm osm (legalLimitFor (highway t)));
              osmSpeed := osm;
              roadType := highway t;
              legalLimit := legalLimitFor (highway t) |}.
Proof.
  intros H. destruct (SpeedLimitSpec.getSpeedLimit_inv _ _ H) as [Htry | ->]; [| auto].
  unfold getSpeedLimit_try in Htry.
  destruct response as [m | [d |]]; try discriminate.
  - destruct (elements d) as [[| road rest] |].
    + injection Htry as <-. auto.
    + destruct (tags road) as [t |]; cbn [bind member] in Htry; [| discriminate].
      destruct (parseMaxspeed (maxspeed t)) as [osm |] eqn:P; cbn [bind] in Htry;
        [| discriminate].
      destruct (validateOsm osm (legalLimitFor (highway t))) as [finalSpeed src] eqn:E.
      injection Htry as <-. right. right. exists t, osm. now rewrite E.
    + injection Htry as <-. auto.
  - injection Htry as <-. auto.
Qed.





(** *** Parsing the posted value *)

Lemma take_digits_digits (s : string) : forallb is_digit (take_digits s) = true.
Proof.
  induction s as [| c s IH]; [reflexivity |].
  cbn [take_digits]. destruct (is_digit c) eqn:E; [| reflexivity].
  cbn [forallb]. now rewrite E.
Qed.

Lemma match_digits_digits (s : string) (ds : list ascii) :
  match_digits s = Some ds -> ds <> [] /\ forallb is_digit ds = true.
Proof.
  induction s as [| c s IH]; [discriminate |].
  cbn [match_digits]. destruct (is_digit c) eqn:E; [| exact IH].
  intros [= <-]. split; [discriminate |].
  cbn [forallb]. now rewrite E, take_digits_digits.
Qed.

Lemma digit_value_range (c : ascii) : is_digit c = true -> 0 <= digit_value c <= 9.
Proof.
  unfold is_digit, digit_value. rewrite andb_true_iff, !Nat.leb_le. lia.
Qed.

Lemma parseInt10_from (ds : list ascii) (acc : Z) :
  forallb is_digit ds = true -> 0 <= acc ->
  0 <= fold_left (fun a c => 10 * a + digit_value c) ds acc.
Proof.
  revert acc. induction ds as [| c ds IH]; intros acc Hd Hacc; [exact Hacc |].
  cbn [forallb] in Hd. apply andb_true_iff in Hd as [Hc Hd].
  cbn [fold_left]. apply IH; [assumption |].
  pose proof (digit_value_range c Hc). lia.
Qed.

Lemma Math_round_nonneg (x : Q) : (0 <= x)%Q -> 0 <= Math_round x.
Proof.
  intros H. unfold Math_round.
  change 0 with (Qfloor 0). apply Qfloor_resp_le. lra.
Qed.

Lemma parseMaxspeed_nonneg (tag : option TagValue) (posted : Z) :
  parseMaxspeed tag = Return (Some posted) -> 0 <= posted.
Proof.
  unfold parseMaxspeed.
  destruct tag as [[[| c s] | []] |]; try discriminate.
  destruct (match_digits (String c s)) as [ds |] eqn:M; [| discriminate].
  destruct (match_digits_digits _ _ M) as [_ Hd].
  assert (0 <= parseInt10 ds) as Hn by (apply parseInt10_from; [assumption | lia]).
  destruct (includes _ _); intros [= <-]; [| assumption].
  apply Math_round_nonneg.
  assert (0 <= inject_Z (parseInt10 ds))%Q
    by (change 0%Q with (inject_Z 0); now rewrite <- Zle_Qle).
  lra.
Qed.

(** X3. The posted value a result carries is never negative: the first
    run of digits of the tag is read, so a sign in front of it is
    ignored. *)
Theorem posted_value_never_negative (response : AxiosResult) (info : SpeedLimitInfo)
    (posted : Z) :
  getSpeedLimit response = Return info ->
  osmSpeed info = Some posted ->
  0 <= posted.
Proof.
  intros H Hp.
  destruct (getSpeedLimit_shape _ _ H) as [-> | [-> | (t & osm & Hparse & ->)]];
    try discriminate.
  cbn [osmSpeed] in Hp. subst osm. exact (parseMaxspeed_nonneg _ _ Hparse).
Qed.

Lemma posted_value_never_negative_witness :
  getSpeedLimit (Samples.oneRoad (Some "track"%string) (Some "-30"%string)) =
    Return (mkInfo 30 Osm (Some 30) (Some "track"%string) 25) /\
  0 <= 30.
Proof.
  split; [reflexivity |].
  apply (posted_value_never_negative
           (Samples.oneRoad (Some "track"%string) (Some "-30"%string))
           (mkInfo 30 Osm (Some 30) (Some "track"%string) 25) 30);
    reflexivity.
Defined.

End SpeedLimitExtra.

(* ------------------------------------------------------------------ *)
(** ** More on the cache *)
(* ------------------------------------------------------------------ *)

Module CacheExtra.
Import SpeedLimit Cache CacheSpec.




Lemma Map_get_set_other (k k' : CacheKey) (e : Entry) (m : SpeedLimitCache) :
  k' <> k -> Map_get k' (Map_set k e m) = Map_get k' m.
Proof.
  intros Hne. induction m as [| [k0 e0] m IH]; cbn [Map_set Map_get].
  - apply key_eqb_neq in Hne. now rewrite Hne.
  - destruct (key_eqb k k0) eqn:E; cbn [Map_get]; [| now rewrite IH].
    apply key_eqb_eq in E. subst k0.
    apply key_eqb_neq in Hne. now rewrite Hne.
Qed.

(** X5. A call that finds its entry expired refreshes it in place: the
    keys keep their order (the refreshed entry does not become the
    newest for eviction), nothing is evicted, the entry now holds the new
    answer with the new insertion time, and every other entry is as it
    was. *)
Theorem stale_entry_refreshed_in_place
    (cache : SpeedLimitCache) (latitude longitude : Q) (nowLookup : Z)
    (response : AxiosResult) (nowInsert : Z) (old : Entry) :
  (Map_size cache <= CACHE_MAX_ENTRIES)%nat ->
  Map_get (cacheKey latitude longitude) cache = Some old ->
  CACHE_DURATION_MS <= nowLookup - timestamp old ->
  let c := getSpeedLimitCached cache latitude longitude nowLookup response nowInsert in
  keys (cache_after c) = keys cache /\
  (exists d, result c = Return d /\
             Map_get (cacheKey latitude longitude) (cache_after c)
               = Some {| data := d; timestamp := nowInsert |}) /\
  (forall k, k <> cacheKey latitude longitude ->
             Map_get k (cache_after c) = Map_get k cache).
Proof.
  intros Hsz Hget Hstale c. subst c. unfold getSpeedLimitCached. rewrite Hget.
  destruct (Z.ltb_spec (nowLookup - timestamp old) CACHE_DURATION_MS); [lia |].
  destruct (SpeedLimitSpec.getSpeedLimit_total response) as [d ->].
  cbn [cache_after result].
  set (stored := Map_set _ _ cache).
  assert (evictOldest stored = stored) as ->.
  { unfold evictOldest.
    destruct (Nat.ltb_spec CACHE_MAX_ENTRIES (Map_size stored)) as [Hgt |];
      [| reflexivity].
    subst stored. rewrite Map_set_size, Hget in Hgt. lia. }
  subst stored. repeat split.
  - exact (Map_set_present _ _ _ _ Hget).
  - exists d. split; [reflexivity | apply Map_get_set_same].
  - intros k Hk. now apply Map_get_set_other.
Qed.

Lemma stale_entry_refreshed_in_place_witness :
  keys (cache_after
          (getSpeedLimitCached
             (run (Samples.cellCalls Samples.residential120 1000 0 3))
             (2 # 1000) 0 200000 Samples.residential30mph 200100))
  = keys (run (Samples.cellCalls Samples.residential120 1000 0 3)).
Proof.
  apply (stale_entry_refreshed_in_place
           (run (Samples.cellCalls Samples.residential120 1000 0 3))
           (2 # 1000) 0 200000 Samples.residential30mph 200100
           {| data := mkInfo 50 LegalValidated (Some 120) (Some "residential"%string) 50;
              timestamp := 1000 |}).
  - vm_compute. lia.
  - reflexivity.
  - now vm_compute.
Defined.

End CacheExtra.

(* ------------------------------------------------------------------ *)
(** ** More on the trip session *)
(* ------------------------------------------------------------------ *)

Module EngineExtra.
Import SpeedLimit Engine EngineObs JsFacts EngineSpec.

(** *** Pure parts of the location callback *)

(** X6. The display speed moves from its previous value towards the raw
    speed and never past it, except that a raw speed below 2 km/h
    replaces it outright. *)
Theorem smooth_between (smoothed speed : Q) :
  ((speed < 2)%Q -> smooth smoothed speed = speed) /\
  ((2 <= speed)%Q -> (smoothed <= speed)%Q ->
     (smoothed <= smooth smoothed speed <= speed)%Q) /\
  ((2 <= speed)%Q -> (speed <= smoothed)%Q ->
     (speed <= smooth smoothed speed <= smoothed)%Q).
Proof.
  unfold smooth. split; [| split].
  - intros H. apply Qlt_bool_iff in H. now rewrite H.
  - intros H H'. apply Qlt_bool_false_iff in H. rewrite H. split; lra.
  - intros H H'. apply Qlt_bool_false_iff in H. rewrite H. split; lra.
Qed.

Lemma smooth_between_witness :
  (2 <= 50)%Q /\ (20 <= 50)%Q /\ (20 <= smooth 20 50 <= 50)%Q.
Proof.
  split; [now vm_compute |]. split; [now vm_compute |].
  apply (proj1 (proj2 (smooth_between 20 50))); now vm_compute.
Defined.

(** X7. A fix counts as good GPS exactly when it reports a non-zero
    accuracy that is at most 20 m, or at most 30 m with at most 3000 ms
    since the last update; a fix with no accuracy, or with accuracy 0, is
    never good. *)
Theorem isGpsGood_iff (accuracy : option Q) (timeSinceLastUpdate : Z) :
  isGpsGood accuracy timeSinceLastUpdate = true <->
  exists a, accuracy = Some a /\ ~ (a == 0)%Q /\
            ((a <= 20)%Q \/ ((a <= 30)%Q /\ (timeSinceLastUpdate <= 3000)%Z)).
Proof.
  unfold isGpsGood. destruct accuracy as [a |].
  - destruct (Qeq_bool a 0) eqn:Ez.
    + apply Qeq_bool_iff in Ez. cbn. split; [discriminate |].
      intros (a' & [= <-] & Hnz & _). contradiction.
    + assert (~ (a == 0)%Q) as Hnz
        by (intros Heq; apply Qeq_bool_iff in Heq; congruence).
      destruct (Qle_bool a 20) eqn:E20.
      * apply Qle_bool_iff in E20. split; [| reflexivity].
        intros _. exists a. auto.
      * apply Qle_bool_false_iff in E20.
        destruct (Qle_bool a 30) eqn:E30; cbn [andb].
        -- apply Qle_bool_iff in E30.
           destruct (Z.leb_spec timeSinceLastUpdate 3000).
           ++ split; [| reflexivity]. intros _. exists a. auto.
           ++ split; [discriminate |].
              intros (a' & [= <-] & _ & [H' | [_ H']]); [lra | lia].
        -- apply Qle_bool_false_iff in E30. split; [discriminate |].
           intros (a' & [= <-] & _ & [H' | [H' _]]); lra.
  - cbn. split; [discriminate |]. intros (a & [=] & _).
Qed.

Lemma isGpsGood_iff_witness :
  isGpsGood (Some 25%Q) 2000 = true /\
  exists a, Some 25%Q = Some a /\ ~ (a == 0)%Q /\
            ((a <= 20)%Q \/ ((a <= 30)%Q /\ (2000 <= 3000)%Z)).
Proof.
  assert (isGpsGood (Some 25%Q) 2000 = true) as H by (vm_compute; reflexivity).
  split; [exact H |].
  exact (proj1 (isGpsGood_iff (Some 25%Q) 2000) H).
Defined.

(** The two percentages are opposite, so they cannot both reach 30. *)
Lemma harshCandidates_exclusive (gpsGood sensorFlagged : bool) (prevSpeed rawSpeed : Q) :
  harshCandidates gpsGood sensorFlagged prevSpeed rawSpeed <> (true, true).
Proof.
  unfold harshCandidates.
  destruct gpsGood, sensorFlagged; cbn [andb];
    try (repeat match goal with
                | |- context [if Qle_bool ?a ?b then _ else _] => destruct (Qle_bool a b)
                end; discriminate).
  - rewrite !andb_true_r.
    destruct (Qlt_bool 0 prevSpeed) eqn:Ep; [| cbn; discriminate].
    apply Qlt_bool_iff in Ep.
    destruct (Qle_bool 30 ((prevSpeed - rawSpeed) / prevSpeed * 100)) eqn:Eb;
      [| discriminate].
    destruct (Qle_bool 30 ((rawSpeed - prevSpeed) / prevSpeed * 100)) eqn:Ea;
      [| discriminate].
    exfalso. apply Qle_bool_iff in Eb, Ea.
    assert ((rawSpeed - prevSpeed) / prevSpeed * 100
            == - ((prevSpeed - rawSpeed) / prevSpeed * 100))%Q as Heq
      by (field; intros H0; rewrite H0 in Ep; now apply (Qlt_irrefl 0)).
    rewrite Heq in Ea. lra.
  - rewrite !andb_false_r. discriminate.
Qed.

Lemma harshCandidates_need_sensor (gpsGood : bool) (prevSpeed rawSpeed : Q) :
  harshCandidates gpsGood false prevSpeed rawSpeed = (false, false).
Proof.
  unfold harshCandidates. destruct gpsGood; [| reflexivity].
  now rewrite !andb_false_r.
Qed.

(** X8. One fix appends at most one harsh event, and none at all while
    the latest accelerometer magnitude is at most 13 m/s^2: a change of
    speed alone never counts. *)
Theorem harsh_event_needs_sensor (h : Harsh) (prev : option LastLocation)
    (speedCount : Z) (accuracy : option Q) (accelMagnitude prevSpeed rawSpeed : Q)
    (time : Z) (latitude longitude : Q) :
  let h' := detectHarsh h prev speedCount accuracy accelMagnitude prevSpeed rawSpeed
              time latitude longitude in
  (length (harshEventsRef h') <= length (harshEventsRef h) + 1)%nat /\
  ((accelMagnitude <= 13)%Q -> h' = h).
Proof.
  unfold detectHarsh.
  destruct prev as [p |]; [| split; [lia | reflexivity]].
  destruct (2 <=? speedCount)%Z; [| split; [lia | reflexivity]].
  destruct (Qle_bool _ _ && Qle_bool _ _); [| split; [lia | reflexivity]].
  split.
  - pose proof (harshCandidates_exclusive
                  (isGpsGood accuracy (time - Engine.time p))
                  (Qlt_bool 13 accelMagnitude) prevSpeed rawSpeed) as Hex.
    destruct (harshCandidates _ _ _ _) as [[|] [|]]; [congruence | | |];
      unfold recordAccel, recordBrake; cbn [andb];
      repeat match goal with
             | |- context [if (?a <=? ?b)%Z then _ else _] => destruct (a <=? b)%Z
             end;
      cbn [harshEventsRef]; rewrite ?length_app; cbn [length]; lia.
  - intros Hm. apply Qlt_bool_false_iff in Hm. rewrite Hm.
    now rewrite harshCandidates_need_sensor.
Qed.

Lemma harsh_event_needs_sensor_witness :
  (98 # 10 <= 13)%Q /\
  detectHarsh Samples.brakedAt11s (Some Samples.refPoint) 5 (Some 10%Q) (98 # 10)
    72 0 (Samples.t0 + 1000) 33.8938 35.5018 = Samples.brakedAt11s.
Proof.
  split; [now vm_compute |].
  apply (proj2 (harsh_event_needs_sensor Samples.brakedAt11s (Some Samples.refPoint) 5
                  (Some 10%Q) (98 # 10) 72 0 (Samples.t0 + 1000) 33.8938 35.5018)).
  now vm_compute.
Defined.

(** *** The speeding monitor *)

Lemma applySpeedLimit_opens (sp : Speeding) (limit time : Z) (rawSpeed : Q) :
  wasSpeedingRef sp = false ->
  (inject_Z limit + 5 < rawSpeed)%Q ->
  let sp' := applySpeedLimit sp limit time rawSpeed in
  wasSpeedingRef sp' = true /\
  speedingStartTimeRef sp' = Some time /\
  speedingViolationsRef sp' = (speedingViolationsRef sp + 1)%Z /\
  speedingDurationRef sp' = speedingDurationRef sp.
Proof.
  intros Hw Hs. apply Qlt_bool_iff in Hs.
  unfold applySpeedLimit. rewrite Hs, Hw. cbn [andb negb].
  cbn [maxSpeedOverLimitRef].
  match goal with
  | |- context [if Qlt_bool ?a ?b then _ else _] => destruct (Qlt_bool a b)
  end; cbn [wasSpeedingRef speedingStartTimeRef speedingViolationsRef
            speedingDurationRef]; repeat split.
Qed.

Lemma applySpeedLimit_closes (sp : Speeding) (limit time start : Z) (rawSpeed : Q) :
  wasSpeedingRef sp = true ->
  speedingStartTimeRef sp = Some start ->
  start <> 0%Z ->
  (rawSpeed <= inject_Z limit + 5)%Q ->
  let sp' := applySpeedLimit sp limit time rawSpeed in
  wasSpeedingRef sp' = false /\
  speedingStartTimeRef sp' = None /\
  speedingViolationsRef sp' = speedingViolationsRef sp /\
  speedingDurationRef sp' = (speedingDurationRef sp + inject_Z (time - start) / 1000)%Q.
Proof.
  intros Hw Hst Hne Hs. apply Qlt_bool_false_iff in Hs.
  unfold applySpeedLimit. rewrite Hs, Hw, Hst. cbn [andb negb truthy].
  destruct (Z.eqb_spec start 0); [contradiction |]. cbn [negb].
  repeat split.
Qed.

(** X9. A speeding episode opened by one resolver answer and closed by a
    later one adds one violation and exactly the time between the two
    fixes, in seconds, to the speeding duration, and leaves no episode
    open. *)
Theorem speeding_episode_accounted (sp : Speeding) (limit1 limit2 t1 t2 : Z)
    (raw1 raw2 : Q) :
  wasSpeedingRef sp = false ->
  t1 <> 0%Z ->
  (inject_Z limit1 + 5 < raw1)%Q ->
  (raw2 <= inject_Z limit2 + 5)%Q ->
  let opened := applySpeedLimit sp limit1 t1 raw1 in
  let closed := applySpeedLimit opened limit2 t2 raw2 in
  wasSpeedingRef opened = true /\
  speedingStartTimeRef opened = Some t1 /\
  speedingViolationsRef closed = (speedingViolationsRef sp + 1)%Z /\
  speedingDurationRef closed = (speedingDurationRef sp + inject_Z (t2 - t1) / 1000)%Q /\
  wasSpeedingRef closed = false /\
  speedingStartTimeRef closed = None.
Proof.
  intros Hw Ht H1 H2 opened closed.
  destruct (applySpeedLimit_opens sp limit1 t1 raw1 Hw H1) as (Ho1 & Ho2 & Ho3 & Ho4).
  fold opened in Ho1, Ho2, Ho3, Ho4.
  destruct (applySpeedLimit_closes opened limit2 t2 t1 raw2 Ho1 Ho2 Ht H2)
    as (Hc1 & Hc2 & Hc3 & Hc4).
  fold closed in Hc1, Hc2, Hc3, Hc4.
  rewrite Hc3, Hc4, Ho3, Ho4. auto 10.
Qed.

Lemma speeding_episode_accounted_witness :
  speedingDurationRef
    (applySpeedLimit
       (applySpeedLimit (speeding Samples.tripStartedState) 60 (Samples.t0 + 10000) 108)
       60 (Samples.t0 + 40000) 50)
  = (speedingDurationRef (speeding Samples.tripStartedState)
     + inject_Z (Samples.t0 + 40000 - (Samples.t0 + 10000)) / 1000)%Q.
Proof.
  apply (speeding_episode_accounted (speeding Samples.tripStartedState)
           60 60 (Samples.t0 + 10000) (Samples.t0 + 40000) 108 50).
  - reflexivity.
  - now vm_compute.
  - now vm_compute.
  - now vm_compute.
Defined.

(** X10. A resolver answer never lowers the recorded maximum over the
    limit, and after an answer that finds the vehicle speeding the
    maximum is at least the current excess. *)
Theorem max_over_limit_grows (sp : Speeding) (limit time : Z) (rawSpeed : Q) :
  (maxSpeedOverLimitRef sp
   <= maxSpeedOverLimitRef (applySpeedLimit sp limit time rawSpeed))%Q /\
  ((inject_Z limit + 5 < rawSpeed)%Q ->
   (rawSpeed - inject_Z limit
    <= maxSpeedOverLimitRef (applySpeedLimit sp limit time rawSpeed))%Q).
Proof.
  unfold applySpeedLimit.
  destruct (Qlt_bool (inject_Z limit + 5) rawSpeed) eqn:Es.
  - destruct (wasSpeedingRef sp); cbn [andb negb maxSpeedOverLimitRef];
      destruct (Qlt_bool (maxSpeedOverLimitRef sp) (rawSpeed - inject_Z limit)) eqn:Em;
      cbn [maxSpeedOverLimitRef];
      first [apply Qlt_bool_iff in Em | apply Qlt_bool_false_iff in Em];
      split; intros; lra.
  - apply Qlt_bool_false_iff in Es. cbn [andb negb].
    destruct (wasSpeedingRef sp); [destruct (speedingStartTimeRef sp) as [st |];
      [destruct (truthy _) |] |]; cbn [maxSpeedOverLimitRef]; split; intros; lra.
Qed.

Lemma max_over_limit_grows_witness :
  (inject_Z 60 + 5 < 108)%Q /\
  (108 - inject_Z 60
   <= maxSpeedOverLimitRef
        (applySpeedLimit (speeding Samples.tripStartedState) 60 (Samples.t0 + 10000) 108))%Q.
Proof.
  split; [now vm_compute |].
  apply (proj2 (max_over_limit_grows (speeding Samples.tripStartedState) 60
                  (Samples.t0 + 10000) 108)).
  now vm_compute.
Defined.

(** *** Invariants of the event loop *)

Section Loop.

Variable distanceKm : Q -> Q -> Q -> Q -> Q.
Variable Math_sqrt : Q -> Q.
Variable android : bool.

Let onFix := Engine.onFix distanceKm.
Let onPosition := Engine.onPosition distanceKm.
Let step := Engine.step distanceKm Math_sqrt android.
Let run := Engine.run distanceKm Math_sqrt android.

Lemma run_preserves (P : App -> Prop) :
  (forall s e, P s -> P (fst (step s e))) ->
  forall events s, P s -> P (run s events).
Proof.
  intros Hstep events. induction events as [| e events IH]; intros s H; [assumption |].
  apply IH. now apply Hstep.
Qed.

Lemma nextLastLocation_some (prev : option LastLocation) (latitude longitude : Q)
    (time : Z) :
  nextLastLocation distanceKm prev latitude longitude time <> None.
Proof.
  unfold nextLastLocation. destruct prev as [p |]; cbn [isSome negb orb]; [| discriminate].
  rewrite orb_false_r. destruct (Qle_bool _ _); discriminate.
Qed.

(** What one fix does to the reference point and to the status. *)
Lemma onFix_location (s : App) (c : Coords) (latitude longitude : Q) (time : Z) :
  let s' := fst (onFix s c latitude longitude time) in
  lastLocationRef (motion s') =
    nextLastLocation distanceKm (lastLocationRef (motion s)) latitude longitude time /\
  status (ui s') = status (ui s).
Proof.
  unfold onFix, Engine.onFix. destruct (tripIdRef s) as [id |]; cbn [isSome negb andb].
  - cbn. auto.
  - destruct (if negb (autoStartInProgressRef (motion s)) then _ else _)
      as [recent fire].
    destruct fire; [| cbn; auto].
    unfold handleStartTrip_call. cbn.
    destruct (nextLastLocation _ _ _ _ _) eqn:E; cbn; rewrite ?E; auto.
Qed.

(** What the synchronous part of an end request touches. *)
Lemma handleEndTrip_call_frame (s : App) (now : Z) :
  let s' := fst (handleEndTrip_call distanceKm s now) in
  tripIdRef s' = tripIdRef s /\ motion s' = motion s /\ harsh s' = harsh s /\
  crash s' = crash s /\ status (ui s') = status (ui s) /\
  (speeding s' = speeding s \/ speeding s' = finalizeSpeeding (speeding s) now).
Proof.
  unfold handleEndTrip_call. destruct (tripIdRef s) as [id |] eqn:E; [| cbn; auto 10].
  cbn. destruct (lastLocationRef (motion s)); cbn; auto 10.
Qed.

(** *** Counters against the lists they summarise *)

Lemma countKind_snoc (k : HarshKind) (events : list HarshEvent) (e : HarshEvent) :
  countKind k (events ++ [e]) =
    (countKind k events + (if kind_eqb (ev_type e) k then 1 else 0))%Z.
Proof.
  unfold countKind. rewrite filter_app, length_app. cbn [filter].
  destruct (kind_eqb (ev_type e) k); cbn [length]; lia.
Qed.

Lemma detectHarsh_counted (h : Harsh) (prev : option LastLocation) (speedCount : Z)
    (accuracy : option Q) (accelMagnitude prevSpeed rawSpeed : Q) (time : Z)
    (latitude longitude : Q) :
  harshCounted h ->
  harshCounted (detectHarsh h prev speedCount accuracy accelMagnitude prevSpeed
                  rawSpeed time latitude longitude).
Proof.
  intros H. unfold detectHarsh.
  destruct prev as [p |]; [| assumption].
  destruct (2 <=? speedCount)%Z; [| assumption].
  destruct (Qle_bool _ _ && Qle_bool _ _); [| assumption].
  destruct (harshCandidates _ _ _ _) as [countBrake countAccel].
  assert (harshCounted (recordBrake h countBrake time latitude longitude rawSpeed)) as Hb.
  { unfold recordBrake. destruct (countBrake && _); [| assumption].
    destruct H as [H1 H2]. split; cbn [harshBrakeCountRef harshAccelCountRef harshEventsRef];
      rewrite countKind_snoc; cbn; lia. }
  revert Hb. generalize (recordBrake h countBrake time latitude longitude rawSpeed).
  intros h1 [H1 H2]. unfold recordAccel. destruct (countAccel && _); [| now split].
  split; cbn [harshBrakeCountRef harshAccelCountRef harshEventsRef];
    rewrite countKind_snoc; cbn; lia.
Qed.

Lemma step_countsAgree (s : App) (e : Event) :
  countsAgree s -> countsAgree (fst (step s e)).
Proof.
  unfold countsAgree. intros H.
  destruct e as [position dateNow | x y z | | time rawSpeed limitData | | trip | now | ended];
    cbn [step Engine.step fst].
  - destruct (onPosition_cases distanceKm s position dateNow)
      as [-> | (c & la & lo & ->)]; [assumption |].
    destruct (tripIdRef s) as [id |] eqn:Hid.
    + destruct (onFix_active distanceKm s c la lo
                  (sampleTime (timestamp position) dateNow) id Hid)
        as (_ & _ & _ & _ & Hh & _).
      intros _. rewrite Hh. apply detectHarsh_counted. apply H. discriminate.
    + destruct (onFix_idle distanceKm s c la lo
                  (sampleTime (timestamp position) dateNow) Hid) as (Ht & _).
      intros Hne. now rewrite Ht in Hne.
  - assumption.
  - unfold onCrashTimeout. destruct (crashTimeout (crash s)); assumption.
  - destruct limitData; assumption.
  - destruct (handleStartTrip_call_frame (isStartingTrip (ui s)) s) as (Ht & _ & Hh & _).
    now rewrite Ht, Hh.
  - destruct trip; cbn; [| assumption]. intros _. split; reflexivity.
  - destruct (handleEndTrip_call_frame s now) as (Ht & _ & Hh & _).
    now rewrite Ht, Hh.
  - destruct ended; cbn; [| assumption]. congruence.
Qed.

Lemma sumSpeeds_snoc (buffer : list BufferPoint) (p : BufferPoint) :
  sumSpeeds (buffer ++ [p]) = (sumSpeeds buffer + pt_speed p)%Q.
Proof. unfold sumSpeeds. now rewrite fold_left_app. Qed.

Lemma step_bufferAgrees (s : App) (e : Event) :
  bufferAgrees s -> bufferAgrees (fst (step s e)).
Proof.
  unfold bufferAgrees. intros H.
  destruct e as [position dateNow | x y z | | time rawSpeed limitData | | trip | now | ended];
    cbn [step Engine.step fst].
  - destruct (onPosition_cases distanceKm s position dateNow)
      as [-> | (c & la & lo & ->)]; [assumption |].
    destruct (tripIdRef s) as [id |] eqn:Hid.
    + destruct (onFix_active distanceKm s c la lo
                  (sampleTime (timestamp position) dateNow) id Hid)
        as (_ & Hbuf & Hsum & Hcnt & _).
      intros _. rewrite Hbuf, Hsum, Hcnt, sumSpeeds_snoc, length_app.
      destruct H as [H1 H2]; [discriminate |]. rewrite H1, H2. cbn. split; [lia | reflexivity].
    + destruct (onFix_idle distanceKm s c la lo
                  (sampleTime (timestamp position) dateNow) Hid) as (Ht & _).
      intros Hne. now rewrite Ht in Hne.
  - assumption.
  - unfold onCrashTimeout. destruct (crashTimeout (crash s)); assumption.
  - destruct limitData; assumption.
  - destruct (handleStartTrip_call_frame (isStartingTrip (ui s)) s) as (Ht & Hm & _).
    now rewrite Ht, Hm.
  - destruct trip; cbn; [| assumption]. intros _. split; reflexivity.
  - destruct (handleEndTrip_call_frame s now) as (Ht & Hm & _).
    now rewrite Ht, Hm.
  - destruct ended; cbn; [| assumption]. congruence.
Qed.

Lemma step_crashPlaced (s : App) (e : Event) :
  crashPlaced (crash s) -> crashPlaced (crash (fst (step s e))).
Proof.
  intros H.
  destruct e as [position dateNow | x y z | | time rawSpeed limitData | | trip | now | ended];
    cbn [step Engine.step fst].
  - destruct (onPosition_cases distanceKm s position dateNow)
      as [-> | (c & la & lo & ->)]; [assumption |].
    destruct (tripIdRef s) as [id |] eqn:Hid.
    + destruct (onFix_active distanceKm s c la lo
                  (sampleTime (timestamp position) dateNow) id Hid)
        as (_ & _ & _ & _ & _ & Hcr & _).
      rewrite Hcr. unfold detectCrash.
      destruct (_ && _ && _); [| exact H].
      unfold crashPlaced; cbn. intuition congruence.
    + destruct (onFix_idle distanceKm s c la lo
                  (sampleTime (timestamp position) dateNow) Hid) as (_ & _ & Hcr & _).
      now rewrite Hcr.
  - exact H.
  - unfold onCrashTimeout. destruct (crashTimeout (crash s)); exact H.
  - destruct limitData; exact H.
  - destruct (handleStartTrip_call_frame (isStartingTrip (ui s)) s) as (_ & _ & _ & Hc & _).
    now rewrite Hc.
  - destruct trip; cbn; [| exact H]. unfold crashPlaced; cbn. intuition congruence.
  - destruct (handleEndTrip_call_frame s now) as (_ & _ & _ & Hc & _).
    now rewrite Hc.
  - destruct ended; exact H.
Qed.

(** The one request an end of trip sends, field by field. *)
Lemma handleEndTrip_call_request (s : App) (now : Z) (c : Command) :
  In c (snd (handleEndTrip_call distanceKm s now)) ->
  exists tripId pos,
    tripIdRef s = Some tripId /\ lastLocationRef (motion s) = Some pos /\
    c = EndTripRequest tripId (lat pos) (lng pos) now
          (round1 (if (0 <? speedCountRef (motion s))%Z
                   then (speedSumRef (motion s) / inject_Z (speedCountRef (motion s)))%Q
                   else speedKmh (ui s)))
          (round2 (totalDistanceKm distanceKm 0 (tripLocationBuffer (motion s))))
          (harshBrakeCountRef (harsh s)) (harshAccelCountRef (harsh s))
          (crashDetectedRef (crash s)) (crashLatRef (crash s)) (crashLngRef (crash s))
          (harshEventsRef (harsh s))
          (Math_round (speedingDurationRef (finalizeSpeeding (speeding s) now)))
          (speedingViolationsRef (finalizeSpeeding (speeding s) now))
          (round1 (maxSpeedOverLimitRef (finalizeSpeeding (speeding s) now))).
Proof.
  unfold handleEndTrip_call. destruct (tripIdRef s) as [tripId |]; [| intros []].
  cbn [set_ui motion ui]. destruct (lastLocationRef (motion s)) as [pos |]; [| intros []].
  intros [<- | []]. exists tripId, pos. repeat split.
Qed.

(** X11. In every state the app can reach while it holds a trip id, the
    harsh-braking and harsh-acceleration counters equal the numbers of
    braking and acceleration events in the event list; so the counts and
    the list that an end of trip sends to the backend agree. *)
Theorem harsh_counters_match_events (events : list Event) :
  countsAgree (run initialApp events) /\
  forall (now : Z) (c : Command) (p : Api.EndTripPayload),
    In c (snd (step (run initialApp events) (EndPressed now))) ->
    Api.payloadOf c = Some p ->
    Api.harsh_braking_count p = countKind braking (Api.harsh_events p) /\
    Api.harsh_acceleration_count p = countKind acceleration (Api.harsh_events p).
Proof.
  assert (countsAgree (run initialApp events)) as Hinv.
  { apply run_preserves; [exact step_countsAgree |].
    intros _. split; reflexivity. }
  split; [exact Hinv |].
  intros now c p Hin Hp. cbn [step Engine.step] in Hin.
  destruct (handleEndTrip_call_request _ _ _ Hin) as (tripId & pos & Hid & _ & ->).
  cbn [Api.payloadOf] in Hp. injection Hp as <-.
  cbn [Api.endTrip_payload Api.harsh_braking_count Api.harsh_acceleration_count
       Api.harsh_events].
  apply Hinv. congruence.
Qed.

(** X12. In every state the app can reach while it holds a trip id, the
    speed count is the number of buffered points and the speed sum is the
    sum of their speeds; so the average speed an end of trip sends is the
    mean of the buffered speeds rounded to one decimal, or, with nothing
    buffered, the displayed speed rounded to one decimal. *)
Theorem average_is_mean_of_buffer (events : list Event) :
  bufferAgrees (run initialApp events) /\
  forall (now : Z) (c : Command) (p : Api.EndTripPayload),
    In c (snd (step (run initialApp events) (EndPressed now))) ->
    Api.payloadOf c = Some p ->
    let s := run initialApp events in
    let buffer := tripLocationBuffer (motion s) in
    Api.average_speed_kmh p =
      match buffer with
      | [] => round1 (speedKmh (ui s))
      | _ :: _ => round1 (sumSpeeds buffer / inject_Z (Z.of_nat (length buffer)))%Q
      end.
Proof.
  assert (bufferAgrees (run initialApp events)) as Hinv.
  { apply run_preserves; [exact step_bufferAgrees |].
    intros _. split; reflexivity. }
  split; [exact Hinv |].
  intros now c p Hin Hp s buffer. cbn [step Engine.step] in Hin.
  destruct (handleEndTrip_call_request _ _ _ Hin) as (tripId & pos & Hid & _ & ->).
  cbn [Api.payloadOf] in Hp. injection Hp as <-.
  cbn [Api.endTrip_payload Api.average_speed_kmh].
  destruct Hinv as [Hcnt Hsum]; [congruence |].
  fold s in Hcnt, Hsum |- *. fold buffer in Hcnt, Hsum.
  rewrite Hcnt, Hsum. destruct buffer as [| b rest]; [reflexivity |].
  destruct (Z.ltb_spec 0 (Z.of_nat (length (b :: rest)))) as [_ | Hle];
    [reflexivity | cbn [length] in Hle; lia].
Qed.

(** X13. In every state the app can reach, the crash coordinates are set
    exactly when the crash flag is; so the end-of-trip payload carries a
    crash location exactly when it reports a crash. *)
Theorem crash_location_iff_crash (events : list Event) :
  crashPlaced (crash (run initialApp events)) /\
  forall (now : Z) (c : Command) (p : Api.EndTripPayload),
    In c (snd (step (run initialApp events) (EndPressed now))) ->
    Api.payloadOf c = Some p ->
    (Api.crash_latitude p <> None <-> Api.crash_detected p = true) /\
    (Api.crash_longitude p <> None <-> Api.crash_detected p = true).
Proof.
  assert (crashPlaced (crash (run initialApp events))) as Hinv.
  { apply (run_preserves (fun s => crashPlaced (crash s))); [exact step_crashPlaced |].
    unfold crashPlaced; cbn. intuition congruence. }
  split; [exact Hinv |].
  intros now c p Hin Hp. cbn [step Engine.step] in Hin.
  destruct (handleEndTrip_call_request _ _ _ Hin) as (tripId & pos & _ & _ & ->).
  cbn [Api.payloadOf] in Hp. injection Hp as <-.
  cbn [Api.endTrip_payload Api.crash_latitude Api.crash_longitude Api.crash_detected].
  destruct Hinv as [Hlat Hlng].
  destruct (crashDetectedRef (crash (run initialApp events)));
    destruct (crashLatRef (crash (run initialApp events)));
    destruct (crashLngRef (crash (run initialApp events)));
    cbn; intuition congruence.
Qed.

(** X14. Nothing of the speeding state reaches the end-of-trip payload:
    the handler passes the speeding duration, the violation count and the
    maximum over the limit as extra arguments that [endTrip] does not
    take, so two states that differ only in their speeding state send the
    same payload. *)
Theorem payload_ignores_speeding (s : App) (sp : Speeding) (now : Z) :
  map Api.payloadOf (snd (handleEndTrip_call distanceKm (set_speeding sp s) now)) =
  map Api.payloadOf (snd (handleEndTrip_call distanceKm s now)).
Proof.
  unfold handleEndTrip_call. cbn [set_speeding tripIdRef].
  destruct (tripIdRef s); [| reflexivity].
  cbn [set_ui set_speeding motion ui].
  destruct (lastLocationRef (motion s)); reflexivity.
Qed.

(** *** The speeding state away from the end of a trip *)

Lemma applySpeedLimit_start_nonzero (sp : Speeding) (limit time : Z) (rawSpeed : Q) :
  time <> 0%Z ->
  speedingStartTimeRef sp <> Some 0%Z ->
  speedingStartTimeRef (applySpeedLimit sp limit time rawSpeed) <> Some 0%Z.
Proof.
  intros Ht Hs. unfold applySpeedLimit.
  destruct (Qlt_bool (inject_Z limit + 5) rawSpeed);
    destruct (wasSpeedingRef sp); cbn [andb negb];
    destruct (speedingStartTimeRef sp) as [start |] eqn:E;
    try destruct (truthy (Some start));
    cbn [maxSpeedOverLimitRef];
    repeat match goal with
           | |- context [if Qlt_bool ?a ?b then _ else _] => destruct (Qlt_bool a b)
           end;
    cbn [speedingStartTimeRef]; rewrite ?E; congruence.
Qed.

Lemma step_speedingSteady (s : App) (e : Event) :
  steadyEvent e = true ->
  speedingSteady (speeding s) -> speedingSteady (speeding (fst (step s e))).
Proof.
  intros He H.
  destruct e as [position dateNow | x y z | | time rawSpeed limitData | | trip | now | ended];
    cbn [step Engine.step fst]; try discriminate He.
  - destruct (onPosition_cases distanceKm s position dateNow)
      as [-> | (c & la & lo & ->)]; [assumption |].
    destruct (tripIdRef s) as [id |] eqn:Hid.
    + destruct (onFix_active distanceKm s c la lo
                  (sampleTime (timestamp position) dateNow) id Hid)
        as (_ & _ & _ & _ & _ & _ & Hsp & _).
      rewrite Hsp. destruct (speedCheckDue _ _); exact H.
    + destruct (onFix_idle distanceKm s c la lo
                  (sampleTime (timestamp position) dateNow) Hid) as (_ & _ & _ & Hsp & _).
      now rewrite Hsp.
  - exact H.
  - unfold onCrashTimeout. destruct (crashTimeout (crash s)); exact H.
  - cbn [steadyEvent] in He. apply negb_true_iff in He. apply Z.eqb_neq in He.
    destruct limitData as [d | m]; [| exact H]. cbn [onLimitResolved set_speeding speeding].
    destruct H as [Hc Hz]. split.
    + now apply applySpeedLimit_consistent.
    + now apply applySpeedLimit_start_nonzero.
  - destruct (handleStartTrip_call_frame (isStartingTrip (ui s)) s)
      as (_ & _ & _ & _ & Hsp).
    now rewrite Hsp.
  - destruct trip; cbn; [| exact H].
    split; [unfold speedingConsistent; cbn; intuition congruence | discriminate].
  - destruct ended; exact H.
Qed.

(** X15. Along any run from the initial state that contains no end
    request and no resolver answer for a fix at time 0, the episode start
    time is set exactly when the speeding flag is: starts, fixes, sensor
    samples, resolver answers and the completion of an end all keep the
    two fields in step. *)
Theorem speeding_consistent_without_end (events : list Event) :
  forallb steadyEvent events = true ->
  speedingConsistent (speeding (run initialApp events)).
Proof.
  intros Hev.
  assert (forall evs s, forallb steadyEvent evs = true ->
            speedingSteady (speeding s) -> speedingSteady (speeding (run s evs))) as Hrun.
  { induction evs as [| e evs IH]; intros s Hs H; [exact H |].
    cbn [forallb] in Hs. apply andb_true_iff in Hs as [He Hs].
    apply IH; [exact Hs | now apply step_speedingSteady]. }
  apply (Hrun events initialApp Hev).
  split; [unfold speedingConsistent; cbn; intuition congruence | discriminate].
Qed.

End Loop.

Lemma crashTripRequest_sent :
  In MoreSamples.crashTripRequest
     (snd (Engine.step Samples.flatDistanceKm Samples.floorSqrt true
             (Engine.run Samples.flatDistanceKm Samples.floorSqrt true initialApp
                Samples.crashTrip)
             (EndPressed (Samples.t0 + 30000)))) /\
  exists p, Api.payloadOf MoreSamples.crashTripRequest = Some p.
Proof.
  split; [vm_compute; left; reflexivity | vm_compute; eexists; reflexivity].
Qed.

Lemma harsh_counters_match_events_witness :
  exists p,
    Api.payloadOf MoreSamples.crashTripRequest = Some p /\
    Api.harsh_braking_count p = countKind braking (Api.harsh_events p).
Proof.
  destruct crashTripRequest_sent as [Hin [p E]].
  exists p. split; [exact E |].
  exact (proj1 (proj2 (harsh_counters_match_events Samples.flatDistanceKm
                         Samples.floorSqrt true Samples.crashTrip)
                  (Samples.t0 + 30000)%Z MoreSamples.crashTripRequest p Hin E)).
Defined.

Lemma average_is_mean_of_buffer_witness :
  exists p,
    Api.payloadOf MoreSamples.crashTripRequest = Some p /\
    Api.average_speed_kmh p =
      match tripLocationBuffer
              (motion (Engine.run Samples.flatDistanceKm Samples.floorSqrt true
                         initialApp Samples.crashTrip)) with
      | [] => round1 (speedKmh (ui (Engine.run Samples.flatDistanceKm Samples.floorSqrt
                                      true initialApp Samples.crashTrip)))
      | _ :: _ =>
          round1 (sumSpeeds
                    (tripLocationBuffer
                       (motion (Engine.run Samples.flatDistanceKm Samples.floorSqrt true
                                  initialApp Samples.crashTrip)))
                  / inject_Z (Z.of_nat (length
                      (tripLocationBuffer
                         (motion (Engine.run Samples.flatDistanceKm Samples.floorSqrt true
                                    initialApp Samples.crashTrip))))))%Q
      end.
Proof.
  destruct crashTripRequest_sent as [Hin [p E]].
  exists p. split; [exact E |].
  exact (proj2 (average_is_mean_of_buffer Samples.flatDistanceKm Samples.floorSqrt
                  true Samples.crashTrip)
           (Samples.t0 + 30000)%Z MoreSamples.crashTripRequest p Hin E).
Defined.

Lemma crash_location_iff_crash_witness :
  exists p,
    Api.payloadOf MoreSamples.crashTripRequest = Some p /\
    (Api.crash_latitude p <> None <-> Api.crash_detected p = true).
Proof.
  destruct crashTripRequest_sent as [Hin [p E]].
  exists p. split; [exact E |].
  exact (proj1 (proj2 (crash_location_iff_crash Samples.flatDistanceKm Samples.floorSqrt
                         true Samples.crashTrip)
                  (Samples.t0 + 30000)%Z MoreSamples.crashTripRequest p Hin E)).
Defined.

Lemma speeding_consistent_without_end_witness :
  forallb steadyEvent Samples.speedingTrip = true /\
  speedingConsistent (speeding Samples.midTrip).
Proof.
  split; [reflexivity |].
  apply (speeding_consistent_without_end Samples.flatDistanceKm Samples.floorSqrt true
           Samples.speedingTrip).
  reflexivity.
Defined.

(** *** Location, status and the cadence of the speed-limit check *)

Section Session.

Variable distanceKm : Q -> Q -> Q -> Q -> Q.
Variable Math_sqrt : Q -> Q.
Variable android : bool.

Let step := Engine.step distanceKm Math_sqrt android.
Let run := Engine.run distanceKm Math_sqrt android.

Lemma step_keeps_location (s : App) (e : Event) :
  lastLocationRef (motion s) <> None ->
  lastLocationRef (motion (fst (step s e))) <> None.
Proof.
  intros H.
  destruct e as [position dateNow | x y z | | time rawSpeed limitData | | trip | now | ended];
    cbn [step Engine.step fst].
  - destruct (onPosition_cases distanceKm s position dateNow)
      as [-> | (c & la & lo & ->)]; [assumption |].
    destruct (onFix_location distanceKm s c la lo
                (sampleTime (timestamp position) dateNow)) as [Hl _].
    rewrite Hl. apply nextLastLocation_some.
  - exact H.
  - unfold onCrashTimeout. destruct (crashTimeout (crash s)); exact H.
  - destruct limitData; exact H.
  - destruct (handleStartTrip_call_frame (isStartingTrip (ui s)) s) as (_ & Hm & _).
    now rewrite Hm.
  - destruct trip; exact H.
  - destruct (handleEndTrip_call_frame distanceKm s now) as (_ & Hm & _).
    now rewrite Hm.
  - destruct ended; exact H.
Qed.

(** X16. Once a fix with numeric coordinates has been processed, the app
    always has a last location, whatever happens next; and a start
    request made when no start is in flight then sends exactly one
    [createTrip] call, with the coordinates of that last location. *)
Theorem start_after_fix_creates_trip (s : App) (position : Position) (dateNow : Z)
    (events : list Event) :
  numericFix position = true ->
  let s' := run s (LocationUpdate position dateNow :: events) in
  exists pos,
    lastLocationRef (motion s') = Some pos /\
    (isStartingTrip (ui s') = false ->
     snd (step s' StartPressed) = [CreateTrip (lat pos) (lng pos)]).
Proof.
  intros Hnum s'.
  assert (lastLocationRef (motion s') <> None) as Hloc.
  { subst s'. cbn [run Engine.run fold_left].
    apply (run_preserves distanceKm Math_sqrt android
             (fun st => lastLocationRef (motion st) <> None));
      [exact step_keeps_location |].
    cbn [Engine.step fst]. unfold Engine.onPosition, numericFix in *.
    destruct (coords position) as [c |]; [| discriminate].
    destruct (latitude c) as [la |]; [| discriminate].
    destruct (longitude c) as [lo |]; [| discriminate].
    destruct (onFix_location distanceKm s c la lo
                (sampleTime (timestamp position) dateNow)) as [Hl _].
    rewrite Hl. apply nextLastLocation_some. }
  destruct (lastLocationRef (motion s')) as [pos |] eqn:E; [| congruence].
  exists pos. split; [reflexivity |].
  intros Hfl. cbn [step Engine.step]. unfold handleStartTrip_call.
  rewrite Hfl. cbn [set_ui motion]. now rewrite E.
Qed.

(** X17. While no trip id is held, a location fix and an accelerometer
    sample leave every trip aggregate (buffer, speed sum and count, harsh
    counters and list, crash flags and place, speeding state) as it
    was. *)
Theorem idle_inputs_leave_aggregates (s : App) (position : Position) (dateNow : Z)
    (x y z : Q) :
  tripIdRef s = None ->
  aggregates (fst (step s (LocationUpdate position dateNow))) = aggregates s /\
  aggregates (fst (step s (AccelerometerSample x y z))) = aggregates s.
Proof.
  intros Hid. split; cbn [step Engine.step fst].
  - destruct (onPosition_cases distanceKm s position dateNow)
      as [-> | (c & la & lo & ->)]; [reflexivity |].
    destruct (onFix_idle distanceKm s c la lo
                (sampleTime (timestamp position) dateNow) Hid)
      as (_ & Hh & Hc & Hsp & Hb & Hsum & Hcnt).
    unfold aggregates. now rewrite Hh, Hc, Hsp, Hb, Hsum, Hcnt.
  - unfold onAccelerometer, aggregates. rewrite Hid. cbn [isSome].
    rewrite andb_false_r. reflexivity.
Qed.

Lemma step_trip_means_driving (s : App) (e : Event) :
  (tripIdRef s <> None -> status (ui s) = driving) ->
  tripIdRef (fst (step s e)) <> None -> status (ui (fst (step s e))) = driving.
Proof.
  intros H.
  destruct e as [position dateNow | x y z | | time rawSpeed limitData | | trip | now | ended];
    cbn [step Engine.step fst].
  - destruct (onPosition_cases distanceKm s position dateNow)
      as [-> | (c & la & lo & ->)]; [assumption |].
    destruct (onFix_location distanceKm s c la lo
                (sampleTime (timestamp position) dateNow)) as [_ Hst].
    rewrite Hst. destruct (tripIdRef s) as [id |] eqn:Hid.
    + intros _. apply H. discriminate.
    + destruct (onFix_idle distanceKm s c la lo
                  (sampleTime (timestamp position) dateNow) Hid) as (Ht & _).
      intros Hne. now rewrite Ht in Hne.
  - exact H.
  - unfold onCrashTimeout. destruct (crashTimeout (crash s)); exact H.
  - destruct limitData; exact H.
  - unfold handleStartTrip_call. destruct (isStartingTrip (ui s)); [exact H |].
    cbn. destruct (lastLocationRef (motion s)); exact H.
  - destruct trip; cbn; [reflexivity | exact H].
  - destruct (handleEndTrip_call_frame distanceKm s now) as (Ht & _ & _ & _ & Hst & _).
    now rewrite Ht, Hst.
  - destruct ended; cbn; [congruence | exact H].
Qed.

(** X18. In every state the app can reach, holding a trip id means the
    displayed status is [driving]. *)
Theorem trip_id_means_driving (events : list Event) :
  tripIdRef (run initialApp events) <> None ->
  status (ui (run initialApp events)) = driving.
Proof.
  apply (run_preserves distanceKm Math_sqrt android
           (fun s => tripIdRef s <> None -> status (ui s) = driving));
    [exact step_trip_means_driving |].
  cbn. congruence.
Qed.

(** X19. The speed-limit check is throttled by fix time: a fix of an
    active trip asks for the limit exactly when at least 10000 ms have
    passed since the last check, and after it has asked, a following fix
    less than 10000 ms later asks for nothing. *)
Theorem limit_check_throttled (s : App) (id : Z) (c1 c2 : Coords)
    (la1 lo1 la2 lo2 : Q) (t1 t2 : Z) :
  tripIdRef s = Some id ->
  let first := Engine.onFix distanceKm s c1 la1 lo1 t1 in
  let second := Engine.onFix distanceKm (fst first) c2 la2 lo2 t2 in
  (snd first <> [] <-> (10000 <= t1 - lastSpeedCheckTimeRef (speeding s))%Z) /\
  (snd first <> [] -> (t2 - t1 < 10000)%Z -> snd second = []).
Proof.
  intros Hid first second.
  destruct (onFix_active distanceKm s c1 la1 lo1 t1 id Hid)
    as (Hid1 & _ & _ & _ & _ & _ & Hsp & Hcmd).
  fold first in Hid1, Hsp, Hcmd.
  assert (snd first <> [] <-> (10000 <= t1 - lastSpeedCheckTimeRef (speeding s))%Z) as Hiff.
  { rewrite Hcmd. unfold speedCheckDue.
    destruct (Z.leb_spec 10000 (t1 - lastSpeedCheckTimeRef (speeding s)));
      split; intros; try lia; congruence. }
  split; [exact Hiff |].
  intros Hne Hlt. apply Hiff in Hne.
  destruct (onFix_active distanceKm (fst first) c2 la2 lo2 t2 id Hid1)
    as (_ & _ & _ & _ & _ & _ & _ & Hcmd2).
  fold second in Hcmd2. rewrite Hcmd2, Hsp. unfold speedCheckDue.
  apply Z.leb_le in Hne. rewrite Hne. cbn [markSpeedCheck lastSpeedCheckTimeRef].
  destruct (Z.leb_spec 10000 (t2 - t1)); [lia | reflexivity].
Qed.

(** *** Trip distance *)

Lemma totalDistanceKm_snoc (buffer : list BufferPoint) (acc : Q) (a p : BufferPoint) :
  totalDistanceKm distanceKm acc ((buffer ++ [a]) ++ [p]) =
  (totalDistanceKm distanceKm acc (buffer ++ [a])
   + distanceKm (pt_lat a) (pt_lng a) (pt_lat p) (pt_lng p))%Q.
Proof.
  revert acc. induction buffer as [| x rest IH]; intros acc; [reflexivity |].
  destruct rest as [| y rest']; [reflexivity |].
  change (((x :: y :: rest') ++ [a]) ++ [p])
    with (x :: ((y :: rest') ++ [a]) ++ [p]).
  change ((x :: y :: rest') ++ [a]) with (x :: (y :: rest') ++ [a]).
  cbn [app totalDistanceKm]. apply (IH _).
Qed.

(** X20. The distance of the buffered path is 0 for an empty buffer and
    for a single point; appending a point adds the distance from the last
    buffered point to it; and, for a distance function that is never
    negative, the total never decreases as points are appended. *)
Theorem trip_distance_appends (acc : Q) (buffer : list BufferPoint) (a p : BufferPoint) :
  (forall lat1 lng1 lat2 lng2, (0 <= distanceKm lat1 lng1 lat2 lng2)%Q) ->
  totalDistanceKm distanceKm 0 [] = 0%Q /\
  totalDistanceKm distanceKm 0 [a] = 0%Q /\
  totalDistanceKm distanceKm acc ((buffer ++ [a]) ++ [p]) =
    (totalDistanceKm distanceKm acc (buffer ++ [a])
     + distanceKm (pt_lat a) (pt_lng a) (pt_lat p) (pt_lng p))%Q /\
  (totalDistanceKm distanceKm acc (buffer ++ [a])
   <= totalDistanceKm distanceKm acc ((buffer ++ [a]) ++ [p]))%Q.
Proof.
  intros Hpos. repeat split.
  - apply totalDistanceKm_snoc.
  - rewrite totalDistanceKm_snoc.
    pose proof (Hpos (pt_lat a) (pt_lng a) (pt_lat p) (pt_lng p)). lra.
Qed.

End Session.

Lemma start_after_fix_creates_trip_witness :
  numericFix (mkPosition (Some Samples.coordsMoved) (Some Samples.t0)) = true /\
  exists pos,
    lastLocationRef
      (motion (Samples.runApp initialApp
                 [LocationUpdate (mkPosition (Some Samples.coordsMoved) (Some Samples.t0))
                    Samples.t0]))
    = Some pos.
Proof.
  split; [reflexivity |].
  destruct (start_after_fix_creates_trip Samples.flatDistanceKm Samples.floorSqrt true
              initialApp (mkPosition (Some Samples.coordsMoved) (Some Samples.t0))
              Samples.t0 [] eq_refl) as (pos & Hpos & _).
  exists pos. exact Hpos.
Defined.

Lemma idle_inputs_leave_aggregates_witness :
  tripIdRef initialApp = None /\
  aggregates (fst (Engine.step Samples.flatDistanceKm Samples.floorSqrt true initialApp
                     (AccelerometerSample 40 0 0)))
  = aggregates initialApp.
Proof.
  split; [reflexivity |].
  apply (proj2 (idle_inputs_leave_aggregates Samples.flatDistanceKm Samples.floorSqrt true
                  initialApp (mkPosition None None) 0 40 0 0 eq_refl)).
Defined.

Lemma trip_id_means_driving_witness :
  tripIdRef Samples.midTrip <> None /\ status (ui Samples.midTrip) = driving.
Proof.
  assert (tripIdRef Samples.midTrip <> None) as H by (vm_compute; discriminate).
  split; [exact H |].
  apply (trip_id_means_driving Samples.flatDistanceKm Samples.floorSqrt true
           Samples.speedingTrip H).
Defined.

Lemma limit_check_throttled_witness :
  tripIdRef Samples.tripStartedState = Some 7%Z /\
  snd (Engine.onFix Samples.flatDistanceKm
         (fst (Engine.onFix Samples.flatDistanceKm Samples.tripStartedState
                 Samples.coordsMoved 33.8945 35.5025 (Samples.t0 + 10000)))
         Samples.coordsMoved 33.8945 35.5025 (Samples.t0 + 12000)) = [].
Proof.
  split; [reflexivity |].
  apply (proj2 (limit_check_throttled Samples.flatDistanceKm Samples.tripStartedState 7
                  Samples.coordsMoved Samples.coordsMoved 33.8945 35.5025
                  33.8945 35.5025 (Samples.t0 + 10000) (Samples.t0 + 12000) eq_refl)).
  - vm_compute. discriminate.
  - now vm_compute.
Defined.

Lemma flatDistanceKm_nonneg (lat1 lng1 lat2 lng2 : Q) :
  (0 <= Samples.flatDistanceKm lat1 lng1 lat2 lng2)%Q.
Proof.
  unfold Samples.flatDistanceKm.
  pose proof (Qabs_nonneg (lat2 - lat1)). pose proof (Qabs_nonneg (lng2 - lng1)).
  apply Qmult_le_0_compat; [now vm_compute | lra].
Qed.

Lemma trip_distance_appends_witness :
  (totalDistanceKm Samples.flatDistanceKm 0
     ([] ++ [mkPoint 33.8938 35.5018 0 0])
   <= totalDistanceKm Samples.flatDistanceKm 0
        (([] ++ [mkPoint 33.8938 35.5018 0 0]) ++ [mkPoint 33.8945 35.5025 2000 0]))%Q.
Proof.
  apply (trip_distance_appends Samples.flatDistanceKm 0 []
           (mkPoint 33.8938 35.5018 0 0) (mkPoint 33.8945 35.5025 2000 0)
           flatDistanceKm_nonneg).
Defined.

(** *** Automatic start *)






End EngineExtra.
